(** * Amazon-Reviews-Management: the review pipeline of [app.py]

    A shallow embedding of the functions of [src/app.py] that filter,
    search, summarise and export the review table, and the properties
    the specification states about them.

    Conventions of the embedding.
    - A pandas [DataFrame] with the columns [polarity], [title], [text]
      is the list of its rows, in positional order.  The columns hold
      what [load_data] reads: an integer and two strings; missing values
      are outside the table type.
    - Python [str] is [string]; a character is a code point below 256.
    - A Python exception is a value of [exn]; a call that may raise
      returns a [result].
    - The decorators [timer_function] and [st.cache] only report timing
      to the user interface and memoise: the functions are embedded by
      their bodies. *)

From Stdlib Require Import ZArith List String Ascii Bool Lia.
From stdpp Require Import base gmap strings list sorting pretty.
Import ListNotations.

Local Open Scope string_scope.
Local Open Scope list_scope.
Local Open Scope Z_scope.

(** ** Exceptions and results *)

Inductive exn : Type :=
| KeyError (key : string)
| re_error (msg : string).

Inductive result (A : Type) : Type :=
| Ok (a : A)
| Raise (e : exn).

Arguments Ok {A} a.
Arguments Raise {A} e.

Definition bind {A B : Type} (m : result A) (f : A -> result B) : result B :=
  match m with
  | Ok a => f a
  | Raise e => Raise e
  end.

(** ** The table *)

Record Row : Type := mkRow {
  polarity : Z;
  title : string;
  text : string
}.

Abbreviation DataFrame := (list Row).

(** [data[mask]]: boolean indexing, the rows whose mask entry is true. *)
Fixpoint mask_select {A : Type} (data : list A) (mask : list bool) : list A :=
  match data, mask with
  | r :: data', b :: mask' =>
      if b then r :: mask_select data' mask' else mask_select data' mask'
  | _, _ => []
  end.

(** ** [filter_data_by_sentiment] *)

Definition sentiment_mapping : gmap string Z :=
  <["negative" := 1]> (<["positive" := 2]> ∅).

(** [d[k]] on a dict: the value, or [KeyError]. *)
Definition dict_getitem (d : gmap string Z) (k : string) : result Z :=
  match d !! k with
  | Some v => Ok v
  | None => Raise (KeyError k)
  end.

Definition filter_data_by_sentiment (data : DataFrame) (sentiment : string)
  : result DataFrame :=
  bind (dict_getitem sentiment_mapping sentiment) (fun code =>
  Ok (mask_select data (map (fun r => polarity r =? code) data))).

(** The table type of the data model: every polarity code is 1 or 2. *)
Definition well_formed (data : DataFrame) : Prop :=
  Forall (fun r => polarity r = 1 \/ polarity r = 2) data.

(** ** Regular expressions: the fragment of Python's [re] that is embedded

    [find_similar_words] hands ['|'.join(synonyms)] to
    [Series.str.contains(pat, case=False)], which compiles it with
    [re.compile(pat, re.IGNORECASE)] and keeps the rows where
    [pat.search(x)] finds a match.  The pattern language embedded here
    is: ordinary characters, [.], [|] and the group parentheses.  The
    other special characters of [re] are [^ $ * + ? { } [ ] \]; what the
    engine does with a pattern that holds one of them is left abstract
    (the [re_outside] argument of [re_compile]).  Groups nest here to
    any depth; CPython's parser gives up with [RecursionError] at some
    hundreds of nested groups, so a statement that a pattern with
    parentheses compiles is a statement about this embedding only. *)

Inductive regex : Type :=
| Empty
| Lit (c : ascii)
| AnyChar
| Seq (r1 r2 : regex)
| Alt (r1 r2 : regex)
| Group (r : regex).

Definition code (c : ascii) : N := N_of_ascii c.

(** [str.lower] on one character, code points below 256. *)
Definition lower (c : ascii) : ascii :=
  let n := code c in
  if ((65 <=? n) && (n <=? 90) || (192 <=? n) && (n <=? 222) && negb (n =? 215))%N
  then ascii_of_N (n + 32) else c.

Definition eqb_ignore_case (c1 c2 : ascii) : bool :=
  Ascii.eqb (lower c1) (lower c2).

Definition outside_fragment (c : ascii) : bool :=
  existsb (Ascii.eqb c)
    ["^"; "$"; "*"; "+"; "?"; "{"; "}"; "["; "]"; "\"]%char.

Definition special (c : ascii) : bool :=
  outside_fragment c || existsb (Ascii.eqb c) ["."; "|"; "("; ")"]%char.

Fixpoint string_exists (p : ascii -> bool) (s : string) : bool :=
  match s with
  | EmptyString => false
  | String c s' => p c || string_exists p s'
  end.

(** The alternatives read so far at one nesting level, and the sequence
    being read. *)
Record frame : Type := mkFrame {
  alts : option regex;
  cur : regex
}.

Definition new_frame : frame := mkFrame None Empty.

Definition push_item (f : frame) (r : regex) : frame :=
  mkFrame (alts f) (Seq (cur f) r).

Definition close_frame (f : frame) : regex :=
  match alts f with
  | None => cur f
  | Some a => Alt a (cur f)
  end.

Definition next_alt (f : frame) : frame :=
  mkFrame (Some (close_frame f)) Empty.

Fixpoint parse_go (stack : list frame) (top : frame) (pat : string)
  : result regex :=
  match pat with
  | EmptyString =>
      match stack with
      | [] => Ok (close_frame top)
      | _ :: _ => Raise (re_error "missing ), unterminated subpattern")
      end
  | String c pat' =>
      if Ascii.eqb c "(" then parse_go (top :: stack) new_frame pat'
      else if Ascii.eqb c ")" then
        match stack with
        | [] => Raise (re_error "unbalanced parenthesis")
        | f :: stack' => parse_go stack' (push_item f (Group (close_frame top))) pat'
        end
      else if Ascii.eqb c "|" then parse_go stack (next_alt top) pat'
      else if Ascii.eqb c "." then parse_go stack (push_item top AnyChar) pat'
      else parse_go stack (push_item top (Lit c)) pat'
  end.

Definition parse (pat : string) : result regex := parse_go [] new_frame pat.

(** Backtracking match of [r] at the head of [s], then [k] on the rest. *)
Fixpoint matches (r : regex) (s : string) (k : string -> bool) : bool :=
  match r with
  | Empty => k s
  | Lit c =>
      match s with
      | String x s' => eqb_ignore_case c x && k s'
      | EmptyString => false
      end
  | AnyChar =>
      match s with
      | String x s' => negb (Ascii.eqb x "010") && k s'
      | EmptyString => false
      end
  | Seq r1 r2 => matches r1 s (fun s' => matches r2 s' k)
  | Alt r1 r2 => matches r1 s k || matches r2 s k
  | Group r' => matches r' s k
  end.

(** [pat.search(x) is not None]: a match at some position of [x]. *)
Fixpoint search (r : regex) (s : string) : bool :=
  matches r s (fun _ => true) ||
  match s with
  | EmptyString => false
  | String _ s' => search r s'
  end.

(** [re.compile(pat, re.IGNORECASE)], as the predicate [x ↦ pat.search(x)
    is not None]. *)
Definition re_compile (re_outside : string -> result (string -> bool))
    (pat : string) : result (string -> bool) :=
  if string_exists outside_fragment pat then re_outside pat
  else bind (parse pat) (fun r => Ok (search r)).

(** [col.str.contains(pat, case=False)] *)
Definition str_contains (re_outside : string -> result (string -> bool))
    (col : list string) (pat : string) : result (list bool) :=
  bind (re_compile re_outside pat) (fun f => Ok (map f col)).

(** ** The lexical database *)

Record WnLemma : Type := mkLemma { lemma_name : string }.
Record Synset : Type := mkSynset { lemmas : list WnLemma }.

(** The corpus reader: its content and the words it was asked for. *)
Record wordnet : Type := mkWordnet {
  db : string -> list Synset;
  queries : list string
}.

Definition synsets (wn : wordnet) (word : string) : list Synset * wordnet :=
  (db wn word, mkWordnet (db wn) (queries wn ++ [word])%list).

(** ** [find_similar_words] *)

Definition str_join (sep : string) (l : list string) : string :=
  String.concat sep l.

Definition find_similar_words (re_outside : string -> result (string -> bool))
    (wn : wordnet) (data : DataFrame) (search_word : string)
  : result (DataFrame * list string) * wordnet :=
  let synonyms := [] in
  match search_word with
  | EmptyString => (Ok (data, synonyms), wn)
  | String _ _ =>
      let '(syns, wn) := synsets wn search_word in
      let synonyms := flat_map (fun syn => map lemma_name (lemmas syn)) syns in
      (bind (str_contains re_outside (map text data) (str_join "|" synonyms))
         (fun mask => Ok (mask_select data mask, synonyms)),
       wn)
  end.

(** The synonyms [find_similar_words] collects for a query, apart from
    the record of the lookup. *)
Definition synonyms_of (wn : wordnet) (search_word : string) : list string :=
  match search_word with
  | EmptyString => []
  | String _ _ =>
      flat_map (fun syn => map lemma_name (lemmas syn)) (db wn search_word)
  end.

(** What the specification asks of a match: the term occurs in the body
    as a literal substring, letter case ignored. *)
Fixpoint prefix_ignore_case (term s : string) : bool :=
  match term, s with
  | EmptyString, _ => true
  | String c term', String x s' =>
      eqb_ignore_case c x && prefix_ignore_case term' s'
  | String _ _, EmptyString => false
  end.

Fixpoint contains_ignore_case (term s : string) : bool :=
  prefix_ignore_case term s ||
  match s with
  | EmptyString => false
  | String _ s' => contains_ignore_case term s'
  end.

Definition literal_match (terms : list string) (r : Row) : bool :=
  existsb (fun term => contains_ignore_case term (text r)) terms.

(** A term without special characters, the pattern items [parse] reads
    from it, and the match of those items. *)
Definition plain (term : string) : Prop := string_exists special term = false.

Fixpoint lits (r : regex) (term : string) : regex :=
  match term with
  | EmptyString => r
  | String c term' => lits (Seq r (Lit c)) term'
  end.

Fixpoint lit_match (term s : string) (k : string -> bool) : bool :=
  match term with
  | EmptyString => k s
  | String c term' =>
      match s with
      | String x s' => eqb_ignore_case c x && lit_match term' s' k
      | EmptyString => false
      end
  end.

Definition alt_frame (f : frame) (term : string) : frame :=
  mkFrame (alts (next_alt f)) (lits Empty term).

(** ** [generate_word_cloud] *)

(** [\w] of [re] on code points below 256: letters, digits, the
    underscore, and the alphanumeric characters of Latin-1. *)
Definition is_word (c : ascii) : bool :=
  let n := code c in
  ((48 <=? n) && (n <=? 57) || (65 <=? n) && (n <=? 90) || (n =? 95)
   || (97 <=? n) && (n <=? 122)
   || (n =? 170) || (n =? 178) || (n =? 179) || (n =? 181) || (n =? 185)
   || (n =? 186) || (188 <=? n) && (n <=? 190)
   || (192 <=? n) && (n <=? 214) || (216 <=? n) && (n <=? 246)
   || (248 <=? n))%N.

Definition flush (run : string) (l : list string) : list string :=
  match run with
  | EmptyString => l
  | String _ _ => run :: l
  end.

(** [re.findall(r'\w+', s)]: the maximal runs of word characters; [run]
    is the run being read. *)
Fixpoint findall_words_from (run : string) (s : string) : list string :=
  match s with
  | EmptyString => flush run []
  | String c s' =>
      if is_word c then findall_words_from (run +:+ String c EmptyString) s'
      else flush run (findall_words_from EmptyString s')
  end.

Definition findall_words (s : string) : list string :=
  findall_words_from EmptyString s.

(** A [Counter] is a dict: its items in insertion order. *)
Fixpoint counter_incr (w : string) (d : list (string * nat))
  : list (string * nat) :=
  match d with
  | [] => [(w, 1%nat)]
  | (k, v) :: d' =>
      if String.eqb k w then (k, S v) :: d' else (k, v) :: counter_incr w d'
  end.

Definition Counter (words : list string) : list (string * nat) :=
  fold_left (fun d w => counter_incr w d) words [].

(** [sorted(items, key=itemgetter(1), reverse=True)]: stable, so items
    of equal count keep their order. *)
Fixpoint insert_by_count (x : string * nat) (l : list (string * nat))
  : list (string * nat) :=
  match l with
  | [] => [x]
  | y :: l' =>
      if (snd x <? snd y)%nat then y :: insert_by_count x l' else x :: l
  end.

Definition sorted_by_count (l : list (string * nat)) : list (string * nat) :=
  fold_right insert_by_count [] l.

(** [Counter.most_common(n)], which is [heapq.nlargest(n, items,
    key=itemgetter(1))], documented as
    [sorted(items, key=key, reverse=True)[:n]]. *)
Definition most_common (n : nat) (d : list (string * nat))
  : list (string * nat) :=
  take n (sorted_by_count d).

Definition str_cat (sep : string) (col : list string) : string :=
  String.concat sep col.

Definition common_words (data : DataFrame) : list (string * nat) :=
  let txt := str_cat " " (map text data) in
  let words := findall_words txt in
  let word_count := Counter words in
  most_common 20 word_count.

Definition generate_word_cloud (data : DataFrame) : list string :=
  map fst (common_words data).

(** The value a call returns, for results compared across shapes. *)
#[warnings="-register-all"]
Inductive pyval : Type :=
| PyStr (s : string)
| PyInt (n : Z)
| PyTuple (items : list pyval)
| PyList (items : list pyval).

Definition py_words (l : list string) : pyval := PyList (map PyStr l).

Definition py_pairs (l : list (string * Z)) : pyval :=
  PyList (map (fun p => PyTuple [PyStr (fst p); PyInt (snd p)]) l).

(** The vocabulary of the ranking: the tokens of a table, how often a
    token occurs (letter case kept), where it is first seen, and the
    count a [Counter] holds for a key. *)
Definition tokens (data : DataFrame) : list string :=
  findall_words (str_cat " " (map text data)).

Definition occurrences (w : string) (l : list string) : nat :=
  length (List.filter (String.eqb w) l).

Fixpoint first_index (w : string) (l : list string) : nat :=
  match l with
  | [] => 0%nat
  | x :: l' => if String.eqb x w then 0%nat else S (first_index w l')
  end.

Fixpoint counter_get (d : list (string * nat)) (k : string) : nat :=
  match d with
  | [] => 0%nat
  | (k', v) :: d' => if String.eqb k' k then v else counter_get d' k
  end.

(** [w1] is ranked before [w2]: it occurs more often, or as often and
    is seen first. *)
Definition ranked_before (toks : list string) (w1 w2 : string) : Prop :=
  (occurrences w2 toks < occurrences w1 toks)%nat
  \/ (occurrences w1 toks = occurrences w2 toks
      /\ (first_index w1 toks < first_index w2 toks)%nat).

(** The same order on the items of a counter. *)
Definition item_before (toks : list string) (a b : string * nat) : Prop :=
  (snd b < snd a)%nat
  \/ (snd a = snd b
      /\ (first_index (fst a) toks < first_index (fst b) toks)%nat).

Definition two_reviews : DataFrame :=
  [mkRow 2 "Pets" "cat dog cat"; mkRow 1 "More pets" "dog bird"].

Definition all_word (s : string) : Prop :=
  string_exists (fun c => negb (is_word c)) s = false.

(** ** [create_single_excel] *)

(** A slice bound brought into [0, len], negative bounds counting from
    the end. *)
Definition clamp_index (len i : Z) : Z :=
  if i <? 0 then Z.max 0 (i + len) else Z.min i len.

(** [l[start:stop]] *)
Definition slice {A : Type} (l : list A) (start stop : Z) : list A :=
  let len := Z.of_nat (length l) in
  let a := clamp_index len start in
  let b := clamp_index len stop in
  take (Z.to_nat (b - a)) (drop (Z.to_nat a) l).

(** [range(start, stop, step)] for a positive step. *)
Definition range (start stop step : Z) : list Z :=
  let n := if start <? stop then (stop - start - 1) / step + 1 else 0 in
  map (fun k => start + Z.of_nat k * step) (seq 0 (Z.to_nat n)).

(** The directories that exist and the regular files.  A spreadsheet is
    recorded as the table whose [to_excel] call wrote it, that is, the
    rows handed to the writer.  The cells xlsxwriter makes of them (a
    text that starts with [=] becomes a formula, a text beyond 32767
    characters is cut) lie below this model: it says which rows go to
    which file, not what a reader of the file gets back. *)
Record filesystem : Type := mkFs {
  dirs : gset string;
  files : gmap string (list Row)
}.

(** [os.makedirs(d, exist_ok=True)] where it succeeds; it raises
    [FileExistsError] when a regular file bears the name (see
    [export_ready]). *)
Definition makedirs_exist_ok (d : string) (fs : filesystem) : filesystem :=
  mkFs ({[d]} ∪ dirs fs) (files fs).

(** [data.to_excel(path, ...)]: the file at [path] is written from the
    rows of [data]. *)
Definition to_excel (data : DataFrame) (path : string) (fs : filesystem)
  : filesystem :=
  mkFs (dirs fs) (<[path := data]> (files fs)).

Definition path_join (d f : string) : string := d +:+ "/" +:+ f.

Definition temp_dir : string := "temp_excel".
Definition chunk_size : Z := 750000.
Definition max_rows_default : Z := 250000.

(** One iteration of the loop over [range(0, len(data), chunk_size)]. *)
Definition export_chunk (data : DataFrame) (max_rows : Z)
    (st : list string * filesystem) (i : Z) : list string * filesystem :=
  let '(file_paths, fs) := st in
  let file_name := "data_part_" +:+ pretty (i / chunk_size + 1) +:+ ".xlsx" in
  let file_path := path_join temp_dir file_name in
  let chunk_data := slice data i (i + chunk_size) in
  let chunk_data :=
    if Z.of_nat (length chunk_data) >? max_rows
    then slice chunk_data 0 max_rows else chunk_data in
  let fs := to_excel chunk_data file_path fs in
  ((file_paths ++ [file_path])%list, fs).

Definition create_single_excel (data : DataFrame) (max_rows : option Z)
    (fs : filesystem) : list string * filesystem :=
  let max_rows := default max_rows_default max_rows in
  let fs := makedirs_exist_ok temp_dir fs in
  fold_left (export_chunk data max_rows)
    (range 0 (Z.of_nat (length data)) chunk_size) ([], fs).

(** The chunks of an export: the tables the files returned were written
    from. *)
Definition chunks (out : list string * filesystem) : list (list Row) :=
  omap (fun p => files (snd out) !! p) (fst out).

Definition empty_fs : filesystem := mkFs ∅ ∅.

(** The path of the first file of an export. *)
Definition first_path : string := "temp_excel/data_part_1.xlsx".

(** ** Sample inputs *)

(** A lexical database whose entry for [a.m.] lists the lemma [a.m.]. *)
Definition wordnet_am : wordnet :=
  mkWordnet
    (fun w =>
       if String.eqb w "a.m."
       then [mkSynset [mkLemma "ante_meridiem"; mkLemma "a.m."];
             mkSynset [mkLemma "ante_meridiem"; mkLemma "a.m."; mkLemma "A.M."]]
       else [])
    [].

(** A lexical database with a lemma that holds a parenthesis. *)
Definition wordnet_smiley : wordnet :=
  mkWordnet
    (fun w =>
       if String.eqb w "smile"
       then [mkSynset [mkLemma "smile"; mkLemma ":)"]]
       else [])
    [].

(** An instance of the abstract part of the engine for the sample runs;
    none of them has a pattern that consults it. *)
Definition re_outside_sample (pat : string) : result (string -> bool) :=
  Raise (re_error "pattern outside the embedded fragment").

Definition reviews_3 : DataFrame :=
  [mkRow 2 "Great" "Loved the smile on his face";
   mkRow 1 "Sore" "My arms hurt";
   mkRow 2 "Fine" "Does the job"].

(** 300 rows, each with its own body. *)
Definition table_300 : DataFrame :=
  map (fun i => mkRow (1 + Z.of_nat i mod 2) "review"
                  ("body " +:+ pretty (Z.of_nat i)))
      (seq 0 300).

(** ** Further vocabulary of the search *)

(** The parentheses of a pattern are balanced, [depth] groups being
    open. *)
Fixpoint balanced (depth : nat) (pat : string) : bool :=
  match pat with
  | EmptyString => Nat.eqb depth 0
  | String c pat' =>
      if Ascii.eqb c "(" then balanced (S depth) pat'
      else if Ascii.eqb c ")" then
        match depth with
        | O => false
        | S d => balanced d pat'
        end
      else balanced depth pat'
  end.

(** A term whose only special character, if any, is the dot; the pattern
    items [parse] reads from it, and their match. *)
Definition dotted (term : string) : Prop :=
  string_exists (fun c => special c && negb (Ascii.eqb c ".")) term = false.

Definition item_of (c : ascii) : regex :=
  if Ascii.eqb c "." then AnyChar else Lit c.

Fixpoint items (r : regex) (term : string) : regex :=
  match term with
  | EmptyString => r
  | String c term' => items (Seq r (item_of c)) term'
  end.

Fixpoint items_match (term s : string) (k : string -> bool) : bool :=
  match term with
  | EmptyString => k s
  | String c term' => matches (item_of c) s (fun s' => items_match term' s' k)
  end.

Definition items_frame (f : frame) (term : string) : frame :=
  mkFrame (alts (next_alt f)) (items Empty term).

(** A pattern character against a text character: the dot stands for
    any character but the newline. *)
Definition char_match (c x : ascii) : bool :=
  if Ascii.eqb c "." then negb (Ascii.eqb x "010") else eqb_ignore_case c x.

Fixpoint pattern_prefix (term s : string) : bool :=
  match term, s with
  | EmptyString, _ => true
  | String c term', String x s' => char_match c x && pattern_prefix term' s'
  | String _ _, EmptyString => false
  end.

Fixpoint pattern_contains (term s : string) : bool :=
  pattern_prefix term s ||
  match s with
  | EmptyString => false
  | String _ s' => pattern_contains term s'
  end.

(** The rows neither sentiment label selects. *)
Definition other_code (r : Row) : bool :=
  negb (polarity r =? 1) && negb (polarity r =? 2).

(** ** [load_data] *)

(** The exceptions of reading and removing files. *)
Inductive io_exn : Type :=
| FileNotFoundError (path : string)
| NotADirectoryError (path : string)
| ParserError (msg : string)
| ValueError (msg : string).

Inductive io_result (A : Type) : Type :=
| Returned (a : A)
| Raised (e : io_exn).

Arguments Returned {A} a.
Arguments Raised {A} e.

(** [[pd.read_csv(file_path, names=[...]) for file_path in file_paths]];
    [read_csv] gives the table a file holds or the error of reading it. *)
Fixpoint read_frames (read_csv : string -> io_result (list Row))
    (file_paths : list string) : io_result (list (list Row)) :=
  match file_paths with
  | [] => Returned []
  | file_path :: rest =>
      match read_csv file_path with
      | Raised e => Raised e
      | Returned frame =>
          match read_frames read_csv rest with
          | Raised e => Raised e
          | Returned frames => Returned (frame :: frames)
          end
      end
  end.

(** [pd.concat(frames)]: the rows of the frames in order; no frame at
    all is an error. *)
Definition pd_concat (frames : list (list Row)) : io_result (list Row) :=
  match frames with
  | [] => Raised (ValueError "No objects to concatenate")
  | _ :: _ => Returned (concat frames)
  end.

Definition load_data (read_csv : string -> io_result (list Row))
    (file_paths : list string) : io_result (list Row) :=
  match read_frames read_csv file_paths with
  | Raised e => Raised e
  | Returned data_frames => pd_concat data_frames
  end.

(** A reader for the sample runs: two files. *)
Definition read_csv_sample (file_path : string) : io_result (list Row) :=
  if String.eqb file_path "train.csv" then Returned reviews_3
  else if String.eqb file_path "test.csv"
       then Returned [mkRow 1 "Late" "Arrived a week late"]
  else Raised (FileNotFoundError file_path).

(** ** More on [create_single_excel] *)

(** The file written for the slice that starts at row [i], and the rows
    it receives. *)
Definition chunk_path (i : Z) : string :=
  path_join temp_dir ("data_part_" +:+ pretty (i / chunk_size + 1) +:+ ".xlsx").

Definition chunk_at (data : DataFrame) (max_rows : Z) (i : Z) : list Row :=
  let chunk_data := slice data i (i + chunk_size) in
  if Z.of_nat (length chunk_data) >? max_rows
  then slice chunk_data 0 max_rows else chunk_data.

(** The number of files of an export of [len] rows. *)
Definition part_count (len : Z) : Z := (len + chunk_size - 1) / chunk_size.

(** The path of part number [n], and the writes of the loop alone. *)
Definition part_path (n : Z) : string :=
  path_join temp_dir ("data_part_" +:+ pretty n +:+ ".xlsx").

Definition write_chunks (data : DataFrame) (max_rows : Z) (starts : list Z)
    (fs : filesystem) : filesystem :=
  fold_left (fun fs i => to_excel (chunk_at data max_rows i) (chunk_path i) fs)
    starts fs.

(** ** [clean_temp_files] *)

Fixpoint starts_with (p s : string) : bool :=
  match p, s with
  | EmptyString, _ => true
  | String a p', String b s' => Ascii.eqb a b && starts_with p' s'
  | String _ _, EmptyString => false
  end.

(** [p] lies below the directory [d]. *)
Definition under (d p : string) : bool := starts_with (d +:+ "/") p.

(** [os.path.exists(p)] *)
Definition path_exists (p : string) (fs : filesystem) : bool :=
  bool_decide (p ∈ dirs fs) || bool_decide (is_Some (files fs !! p)).

(** [shutil.rmtree(d)]: the directory goes with all that lies below it;
    a regular file is not a directory. *)
Definition rmtree (d : string) (fs : filesystem) : io_result filesystem :=
  if bool_decide (d ∈ dirs fs) then
    Returned
      (mkFs (filter (fun p => p <> d /\ under d p = false) (dirs fs))
            (filter (fun kv => under d (fst kv) = false) (files fs)))
  else if bool_decide (is_Some (files fs !! d))
       then Raised (NotADirectoryError d)
  else Raised (FileNotFoundError d).

Definition clean_temp_files (temp_dir : option string) (fs : filesystem)
  : io_result filesystem :=
  let temp_dir := default "temp_excel" temp_dir in
  if path_exists temp_dir fs then rmtree temp_dir fs else Returned fs.

(** ** [test.py]: the page of rows [main] displays *)

Module test.

(** The largest page number the input accepts. *)
Definition max_page_number (len page_size : Z) : Z :=
  Z.max 1 (len / page_size) + 1.

(** The two row numbers of the message "Displaying rows ... to ...". *)
Definition first_displayed (page_number page_size : Z) : Z :=
  page_number * page_size - page_size + 1.

Definition last_displayed (page_number page_size len : Z) : Z :=
  Z.min (page_number * page_size) len.

Definition start_idx (page_number page_size : Z) : Z :=
  (page_number - 1) * page_size.

Definition end_idx (page_number page_size : Z) : Z :=
  start_idx page_number page_size + page_size.

(** [filtered_data.iloc[start_idx:end_idx]] *)
Definition displayed_rows (data : DataFrame) (page_number page_size : Z)
  : list Row :=
  slice data (start_idx page_number page_size) (end_idx page_number page_size).

End test.

(** ** The writes of [create_single_excel] *)

(** The calls [chunk_data.to_excel(file_path, ...)] of the loop, in
    order: the path and the rows handed to the writer. *)
Definition to_excel_calls (data : DataFrame) (max_rows : option Z)
  : list (string * list Row) :=
  let max_rows := default max_rows_default max_rows in
  map (fun i => (chunk_path i, chunk_at data max_rows i))
    (range 0 (Z.of_nat (length data)) chunk_size).

(** The export can make its directory and open its files: no regular
    file bears the name [temp_excel], where [os.makedirs] would raise
    [FileExistsError], and no part path is a directory, where the writer
    would raise [IsADirectoryError]. *)
Definition export_ready (fs : filesystem) : Prop :=
  files fs !! temp_dir = None /\ forall n : Z, part_path n ∉ dirs fs.

Definition is_paren (c : ascii) : bool :=
  Ascii.eqb c "(" || Ascii.eqb c ")".

(** ** Properties *)

(** *** Sample runs of the embedded operations *)

Example findall_words_sample :
  findall_words "it's a well-known fact_1!"
  = ["it"; "s"; "a"; "well"; "known"; "fact_1"].
Proof. reflexivity. Qed.

Example Counter_sample :
  Counter ["cat"; "dog"; "cat"] = [("cat", 2%nat); ("dog", 1%nat)].
Proof. reflexivity. Qed.

Example most_common_sample :
  most_common 2 [("a", 1%nat); ("b", 2%nat); ("c", 2%nat)]
  = [("b", 2%nat); ("c", 2%nat)].
Proof. reflexivity. Qed.

Example range_sample : range 0 2000000 750000 = [0; 750000; 1500000].
Proof. reflexivity. Qed.

Example slice_sample :
  slice [1; 2; 3; 4] 1 3 = [2; 3] /\ slice [1; 2; 3; 4] 0 (-1) = [1; 2; 3]
  /\ slice [1; 2; 3; 4] 2 750002 = [3; 4].
Proof. repeat split. Qed.

Example parse_sample :
  parse "ab|c" = Ok (Alt (Seq (Seq Empty (Lit "a")) (Lit "b")) (Seq Empty (Lit "c")))
  /\ parse "a(b" = Raise (re_error "missing ), unterminated subpattern").
Proof. split; reflexivity. Qed.

Example search_sample :
  bind (parse "GOOD|fine") (fun r => Ok (map (search r) ["so good"; "Fine."; "bad"]))
  = Ok [true; true; false].
Proof. reflexivity. Qed.


Lemma mask_select_map {A : Type} (p : A -> bool) (data : list A) :
  mask_select data (map p data) = List.filter p data.
Proof.
  induction data as [|r data IH]; simpl; [reflexivity|].
  rewrite IH. reflexivity.
Qed.

Lemma sentiment_mapping_lookup (s : string) :
  sentiment_mapping !! s =
    if decide (s = "negative") then Some 1
    else if decide (s = "positive") then Some 2 else None.
Proof.
  unfold sentiment_mapping.
  rewrite lookup_insert. destruct (decide ("negative" = s)) as [<-|Hn].
  - rewrite decide_True by reflexivity. reflexivity.
  - rewrite decide_False by congruence.
    rewrite lookup_insert. destruct (decide ("positive" = s)) as [<-|Hp].
    + rewrite decide_True by reflexivity. reflexivity.
    + rewrite decide_False by congruence. apply lookup_empty.
Qed.

Lemma filter_positive (data : DataFrame) :
  filter_data_by_sentiment data "positive"
  = Ok (List.filter (fun r => polarity r =? 2) data).
Proof.
  unfold filter_data_by_sentiment, dict_getitem.
  rewrite sentiment_mapping_lookup. simpl.
  rewrite mask_select_map. reflexivity.
Qed.

Lemma filter_negative (data : DataFrame) :
  filter_data_by_sentiment data "negative"
  = Ok (List.filter (fun r => polarity r =? 1) data).
Proof.
  unfold filter_data_by_sentiment, dict_getitem.
  rewrite sentiment_mapping_lookup. simpl.
  rewrite mask_select_map. reflexivity.
Qed.

Lemma filter_unrecognized (data : DataFrame) (s : string) :
  s <> "positive" -> s <> "negative" ->
  filter_data_by_sentiment data s = Raise (KeyError s).
Proof.
  intros Hp Hn. unfold filter_data_by_sentiment, dict_getitem.
  rewrite sentiment_mapping_lookup.
  rewrite decide_False by assumption. rewrite decide_False by assumption.
  reflexivity.
Qed.

(** *** Sentiment filter *)

(** C4: the sentiment filter fails exactly when the label is neither
    [positive] nor [negative]; the failure is the [KeyError] of the label
    lookup, carrying the offending label.  On the two recognized labels
    it returns a table. *)
Theorem filter_fails_iff_unrecognized (data : DataFrame) (s : string) :
  (filter_data_by_sentiment data s = Raise (KeyError s)
   <-> s <> "positive" /\ s <> "negative")
  /\ ((exists t, filter_data_by_sentiment data s = Ok t)
      <-> s = "positive" \/ s = "negative").
Proof.
  destruct (decide (s = "positive")) as [->|Hp].
  { rewrite filter_positive. split; split.
    - discriminate.
    - intros [H _]. congruence.
    - intros _. left. reflexivity.
    - intros _. eexists. reflexivity. }
  destruct (decide (s = "negative")) as [->|Hn].
  { rewrite filter_negative. split; split.
    - discriminate.
    - intros [_ H]. congruence.
    - intros _. right. reflexivity.
    - intros _. eexists. reflexivity. }
  rewrite filter_unrecognized by assumption. split; split.
  - intros _. split; assumption.
  - reflexivity.
  - intros [t Ht]. discriminate.
  - intros [H|H]; contradiction.
Qed.

Lemma filter_recognized (data : DataFrame) (s : string) :
  s = "positive" \/ s = "negative" ->
  exists code, (code = 1 \/ code = 2) /\
    filter_data_by_sentiment data s
    = Ok (List.filter (fun r => polarity r =? code) data).
Proof.
  intros [->| ->].
  - exists 2. split; [right; reflexivity | apply filter_positive].
  - exists 1. split; [left; reflexivity | apply filter_negative].
Qed.

Lemma filter_ok_inv (data t : DataFrame) (s : string) :
  filter_data_by_sentiment data s = Ok t ->
  exists code, t = List.filter (fun r => polarity r =? code) data
    /\ forall data', filter_data_by_sentiment data' s
         = Ok (List.filter (fun r => polarity r =? code) data').
Proof.
  unfold filter_data_by_sentiment, dict_getitem.
  destruct (sentiment_mapping !! s) as [code|]; simpl; [|discriminate].
  intros H. exists code. split.
  - rewrite <- mask_select_map. congruence.
  - intros data'. rewrite mask_select_map. reflexivity.
Qed.

Lemma filter_twice {A : Type} (p : A -> bool) (l : list A) :
  List.filter p (List.filter p l) = List.filter p l.
Proof.
  induction l as [|x l IH]; simpl; [reflexivity|].
  destruct (p x) eqn:Hx; simpl; [rewrite Hx, IH|]; auto.
Qed.

Lemma mask_select_sublist {A : Type} (data : list A) (mask : list bool) :
  mask_select data mask `sublist_of` data.
Proof.
  revert mask. induction data as [|r data IH]; intros mask; simpl.
  - constructor.
  - destruct mask as [|[] mask].
    + apply sublist_nil_l.
    + apply sublist_skip, IH.
    + apply sublist_cons, IH.
Qed.

(** C5: on a table of the data model (polarity 1 or 2), the positive and
    the negative sub-tables share no row and their lengths add up to the
    length of the table. *)
Theorem filter_partitions (data : DataFrame) :
  well_formed data ->
  exists pos neg,
    filter_data_by_sentiment data "positive" = Ok pos
    /\ filter_data_by_sentiment data "negative" = Ok neg
    /\ (forall r, In r pos -> In r neg -> False)
    /\ (length pos + length neg = length data)%nat.
Proof.
  intros Hwf. eexists _, _.
  split; [apply filter_positive|]. split; [apply filter_negative|]. split.
  - intros r Hpos Hneg.
    apply filter_In in Hpos as [_ Hpos]. apply filter_In in Hneg as [_ Hneg].
    lia.
  - induction Hwf as [|r data [H|H] _ IH]; simpl; [reflexivity| |].
    + rewrite H. simpl. lia.
    + rewrite H. simpl. lia.
Qed.

Lemma filter_partitions_witness :
  exists pos neg,
    filter_data_by_sentiment reviews_3 "positive" = Ok pos
    /\ filter_data_by_sentiment reviews_3 "negative" = Ok neg
    /\ (forall r, In r pos -> In r neg -> False)
    /\ (length pos + length neg = length reviews_3)%nat.
Proof.
  apply (filter_partitions reviews_3).
  unfold well_formed, reviews_3.
  repeat (apply List.Forall_cons; [simpl; lia|]). apply List.Forall_nil.
Defined.


(** C7: filtering the filtered table again by the same recognized label
    gives the filtered table. *)
Theorem filter_idempotent (data : DataFrame) (s : string) :
  s = "positive" \/ s = "negative" ->
  exists t, filter_data_by_sentiment data s = Ok t
            /\ filter_data_by_sentiment t s = Ok t.
Proof.
  intros Hs. destruct (filter_recognized data s Hs) as (code & _ & Hf).
  eexists. split; [exact Hf|].
  destruct (filter_ok_inv _ _ _ Hf) as (code' & Heq & Hall).
  rewrite Hall, Heq. rewrite filter_twice. reflexivity.
Qed.

Lemma filter_idempotent_witness :
  exists t, filter_data_by_sentiment reviews_3 "negative" = Ok t
            /\ filter_data_by_sentiment t "negative" = Ok t.
Proof. apply (filter_idempotent reviews_3 "negative"). right. reflexivity. Defined.


(** *** Text search *)

Section Search.

Context (re_outside : string -> result (string -> bool)).

Lemma find_similar_words_synonyms wn data w t syn wn' :
  find_similar_words re_outside wn data w = (Ok (t, syn), wn') ->
  syn = synonyms_of wn w /\ t `sublist_of` data.
Proof.
  unfold find_similar_words, synonyms_of. destruct w as [|c w].
  - intros [= <- <- <-]. split; reflexivity.
  - simpl. unfold str_contains.
    destruct (re_compile _ _) as [f|e]; simpl; [|discriminate].
    intros [= <- <- <-]. split; [reflexivity | apply mask_select_sublist].
Qed.

Lemma search_Empty (s : string) : search Empty s = true.
Proof. destruct s; reflexivity. Qed.

Lemma mask_select_all {A : Type} (data : list A) (mask : list bool) :
  length mask = length data -> Forall (fun b => b = true) mask ->
  mask_select data mask = data.
Proof.
  revert mask. induction data as [|r data IH]; intros [|b mask]; simpl;
    try discriminate; try reflexivity.
  intros [= Hlen] Hall. inversion Hall as [|? ? -> Hall']; subst.
  rewrite IH by assumption. reflexivity.
Qed.

Lemma str_contains_empty_pattern (col : list string) :
  str_contains re_outside col "" = Ok (map (fun _ => true) col).
Proof.
  unfold str_contains, re_compile. simpl. f_equal.
  apply map_ext. intros s. apply search_Empty.
Qed.

(** C6: when the synonym set of the query is empty, the search returns
    the table it was given, without error; so searching a filtered table
    with an empty synonym set gives the filtered table. *)
Theorem search_empty_synonyms_unchanged (wn : wordnet) (data : DataFrame)
    (w : string) :
  synonyms_of wn w = [] ->
  fst (find_similar_words re_outside wn data w) = Ok (data, [])
  /\ forall s t, filter_data_by_sentiment data s = Ok t ->
       fst (find_similar_words re_outside wn t w) = Ok (t, []).
Proof.
  intros Hsyn.
  assert (Hall : forall d : DataFrame,
             fst (find_similar_words re_outside wn d w) = Ok (d, [])).
  { intros d. unfold find_similar_words. destruct w as [|c w]; [reflexivity|].
    unfold synonyms_of in Hsyn. unfold synsets. cbn [db fst]. rewrite Hsyn.
    change (str_join "|" []) with "". rewrite str_contains_empty_pattern.
    cbn [bind fst].
    rewrite mask_select_all; [reflexivity | now rewrite !length_map |].
    induction (map text d); simpl; constructor; auto. }
  split; [apply Hall|]. intros s t _. apply Hall.
Qed.

(** C9: on the empty query the synonym list is empty, the table comes
    back as it was given, and the lexical database is left as it was: no
    lookup is recorded. *)
Theorem empty_query_no_lookup (wn : wordnet) (data : DataFrame) :
  find_similar_words re_outside wn data "" = (Ok (data, []), wn).
Proof. reflexivity. Qed.

(** **** Terms without special characters are matched literally *)

Lemma special_false (c : ascii) :
  special c = false ->
  outside_fragment c = false /\ Ascii.eqb c "(" = false
  /\ Ascii.eqb c ")" = false /\ Ascii.eqb c "|" = false
  /\ Ascii.eqb c "." = false.
Proof.
  unfold special. cbn [existsb]. intros H.
  repeat (apply orb_false_elim in H as [? H] || apply orb_false_elim in H as [H ?]).
  repeat split; assumption.
Qed.

Lemma plain_cons (c : ascii) (t : string) :
  plain (String c t) -> special c = false /\ plain t.
Proof. unfold plain. cbn [string_exists]. apply orb_false_elim. Qed.

Lemma parse_go_plain (t : string) :
  forall (st : list frame) (f : frame) (rest : string),
    plain t ->
    parse_go st f (t +:+ rest)
    = parse_go st (mkFrame (alts f) (lits (cur f) t)) rest.
Proof.
  induction t as [|c t IH]; intros st f rest Hp.
  - destruct f. reflexivity.
  - apply plain_cons in Hp as [Hc Hp].
    apply special_false in Hc as (_ & H1 & H2 & H3 & H4).
    change (String c t +:+ rest) with (String c (t +:+ rest)).
    cbn [parse_go lits]. rewrite H1, H2, H3, H4.
    rewrite IH by assumption. reflexivity.
Qed.

Lemma append_empty_r (s : string) : s +:+ "" = s.
Proof.
  induction s as [|c s IH]; [reflexivity|].
  change (String c s +:+ "") with (String c (s +:+ "")).
  rewrite IH. reflexivity.
Qed.

Lemma str_join_cons (sep t t' : string) (ts : list string) :
  str_join sep (t :: t' :: ts) = t +:+ sep +:+ str_join sep (t' :: ts).
Proof. reflexivity. Qed.

Lemma parse_go_join (ts : list string) :
  forall (f : frame) (t : string),
    Forall plain (t :: ts) ->
    parse_go [] f (str_join "|" (t :: ts))
    = Ok (close_frame
            (fold_left alt_frame ts (mkFrame (alts f) (lits (cur f) t)))).
Proof.
  induction ts as [|t' ts IH]; intros f t Hall.
  - inversion Hall as [|? ? Ht _]; subst.
    change (str_join "|" [t]) with t.
    rewrite <- (append_empty_r t) at 1.
    rewrite parse_go_plain by assumption. reflexivity.
  - inversion Hall as [|? ? Ht Hts]; subst.
    rewrite str_join_cons, parse_go_plain by assumption.
    change ("|" +:+ str_join "|" (t' :: ts))
      with (String "|" (str_join "|" (t' :: ts))).
    cbn [parse_go Ascii.eqb Bool.eqb].
    rewrite IH by assumption. reflexivity.
Qed.

Lemma matches_lits (t : string) :
  forall (r : regex) (s : string) (k : string -> bool),
    matches (lits r t) s k = matches r s (fun s' => lit_match t s' k).
Proof.
  induction t as [|c t IH]; intros r s k; cbn [lits].
  - reflexivity.
  - rewrite IH. reflexivity.
Qed.

Lemma lit_match_prefix (t : string) :
  forall s, lit_match t s (fun _ => true) = prefix_ignore_case t s.
Proof.
  induction t as [|c t IH]; intros [|x s]; simpl; try reflexivity.
  rewrite IH. reflexivity.
Qed.

Lemma matches_alt_frames (ts : list string) :
  forall (f : frame) (s : string),
    matches (close_frame (fold_left alt_frame ts f)) s (fun _ => true)
    = matches (close_frame f) s (fun _ => true)
      || existsb (fun t => prefix_ignore_case t s) ts.
Proof.
  induction ts as [|t ts IH]; intros f s; cbn [fold_left existsb].
  - rewrite orb_false_r. reflexivity.
  - rewrite IH. unfold alt_frame. unfold close_frame at 1.
    cbn [alts cur next_alt matches].
    rewrite matches_lits. cbn [matches]. rewrite lit_match_prefix.
    rewrite orb_assoc. reflexivity.
Qed.

Lemma existsb_orb {A : Type} (f g : A -> bool) (l : list A) :
  existsb (fun x => f x || g x) l = existsb f l || existsb g l.
Proof.
  induction l as [|x l IH]; simpl; [reflexivity|]. rewrite IH.
  destruct (f x), (g x), (existsb f l); reflexivity.
Qed.

Lemma existsb_pointwise {A : Type} (f g : A -> bool) (l : list A) :
  (forall x, f x = g x) -> existsb f l = existsb g l.
Proof.
  intros Hfg. induction l as [|x l IH]; simpl; [reflexivity|].
  rewrite Hfg, IH. reflexivity.
Qed.

Lemma search_alternatives (r : regex) (ts : list string) :
  (forall s, matches r s (fun _ => true)
             = existsb (fun t => prefix_ignore_case t s) ts) ->
  forall s, search r s = existsb (fun t => contains_ignore_case t s) ts.
Proof.
  intros Hr. induction s as [|x s IH]; cbn [search].
  - rewrite Hr, orb_false_r. apply existsb_pointwise. intros t.
    cbn [contains_ignore_case]. rewrite orb_false_r. reflexivity.
  - rewrite Hr, IH, <- existsb_orb. reflexivity.
Qed.

Lemma string_exists_append (p : ascii -> bool) (a b : string) :
  string_exists p (a +:+ b) = string_exists p a || string_exists p b.
Proof.
  induction a as [|c a IH]; [reflexivity|].
  change (String c a +:+ b) with (String c (a +:+ b)).
  cbn [string_exists]. rewrite IH, orb_assoc. reflexivity.
Qed.

Lemma plain_inside (t : string) :
  plain t -> string_exists outside_fragment t = false.
Proof.
  induction t as [|c t IH]; intros Hp; [reflexivity|].
  apply plain_cons in Hp as [Hc Hp]. apply special_false in Hc as [Hc _].
  cbn [string_exists]. rewrite Hc, IH by assumption. reflexivity.
Qed.

Lemma join_inside (ts : list string) :
  Forall plain ts -> string_exists outside_fragment (str_join "|" ts) = false.
Proof.
  induction ts as [|t ts IH]; intros Hall; [reflexivity|].
  inversion Hall as [|? ? Ht Hts]; subst. destruct ts as [|t' ts].
  - apply plain_inside, Ht.
  - rewrite str_join_cons, !string_exists_append.
    rewrite plain_inside, IH by assumption. reflexivity.
Qed.

Lemma str_contains_plain (col terms : list string) :
  terms <> [] -> Forall plain terms ->
  str_contains re_outside col (str_join "|" terms)
  = Ok (map (fun s => existsb (fun t => contains_ignore_case t s) terms) col).
Proof.
  intros Hne Hall. destruct terms as [|t ts]; [contradiction|].
  unfold str_contains, re_compile. rewrite join_inside by assumption.
  unfold parse. rewrite parse_go_join by assumption. cbn [bind]. f_equal.
  apply map_ext. intros s. apply search_alternatives. clear s. intros s.
  rewrite matches_alt_frames. cbn [close_frame alts cur new_frame existsb].
  rewrite matches_lits. cbn [matches]. rewrite lit_match_prefix. reflexivity.
Qed.

Lemma mask_select_column (f : string -> bool) (data : DataFrame) :
  mask_select data (map f (map text data))
  = List.filter (fun r => f (text r)) data.
Proof. rewrite map_map. apply mask_select_map. Qed.

(** X9: when no synonym holds a special character, the search keeps exactly
    the rows whose body contains a synonym literally, letter case
    ignored, and it does not raise. *)
Lemma search_plain_terms_literal (wn : wordnet) (data : DataFrame)
    (w : string) :
  synonyms_of wn w <> [] -> Forall plain (synonyms_of wn w) ->
  fst (find_similar_words re_outside wn data w)
  = Ok (List.filter (literal_match (synonyms_of wn w)) data, synonyms_of wn w).
Proof.
  intros Hne Hall. unfold find_similar_words. destruct w as [|c w].
  - contradiction Hne. reflexivity.
  - unfold synonyms_of in *. unfold synsets. cbn [db fst].
    rewrite str_contains_plain by assumption. cbn [bind].
    rewrite mask_select_column. reflexivity.
Qed.

End Search.

Lemma search_empty_synonyms_unchanged_witness :
  fst (find_similar_words re_outside_sample wordnet_am reviews_3 "noon")
  = Ok (reviews_3, [])
  /\ forall s t, filter_data_by_sentiment reviews_3 s = Ok t ->
       fst (find_similar_words re_outside_sample wordnet_am t "noon")
       = Ok (t, []).
Proof.
  apply (search_empty_synonyms_unchanged re_outside_sample wordnet_am
           reviews_3 "noon").
  reflexivity.
Defined.

(** C8: a table returned by the sentiment filter or by the search is a
    sub-sequence of the table it was derived from: its rows are rows of
    the input, field for field, in their original order. *)
Theorem derived_table_sublist :
  (forall (data t : DataFrame) (s : string),
      filter_data_by_sentiment data s = Ok t -> t `sublist_of` data)
  /\ (forall re_outside wn wn' (data t : DataFrame) (w : string) syn,
      find_similar_words re_outside wn data w = (Ok (t, syn), wn') ->
      t `sublist_of` data).
Proof.
  split.
  - intros data t s H. unfold filter_data_by_sentiment in H.
    destruct (dict_getitem _ _) as [code|]; simpl in H; [|discriminate].
    injection H as <-. apply mask_select_sublist.
  - intros re_outside wn wn' data t w syn H.
    eapply find_similar_words_synonyms, H.
Qed.

Lemma derived_table_sublist_witness :
  [mkRow 1 "Sore" "My arms hurt"] `sublist_of` reviews_3
  /\ [mkRow 1 "Sore" "My arms hurt"] `sublist_of` reviews_3.
Proof.
  split.
  - apply (proj1 derived_table_sublist reviews_3 _ "negative"). reflexivity.
  - eapply (proj2 derived_table_sublist re_outside_sample wordnet_am _
              reviews_3 _ "a.m.").
    reflexivity.
Defined.


(** C2 on the code: the search does not escape its terms.  With the synonyms
    [ante_meridiem], [a.m.], [A.M.] the dot stands for any character, and
    the row [My arms hurt] is kept although no synonym occurs in it; with
    a synonym [:)] the pattern does not compile and the call raises. *)
Theorem search_terms_read_as_patterns
    (re_outside : string -> result (string -> bool)) :
  let data := [mkRow 1 "Sore" "My arms hurt"] in
  let syns := synonyms_of wordnet_am "a.m." in
  fst (find_similar_words re_outside wordnet_am data "a.m.") = Ok (data, syns)
  /\ List.filter (literal_match syns) data = []
  /\ fst (find_similar_words re_outside wordnet_smiley reviews_3 "smile")
     = Raise (re_error "unbalanced parenthesis").
Proof. repeat split; vm_compute; reflexivity. Qed.

(** *** Export *)

Lemma range_single (n step : Z) : 0 < n <= step -> range 0 n step = [0].
Proof.
  intros H. unfold range.
  replace (0 <? n) with true by (symmetry; apply Z.ltb_lt; lia).
  rewrite Z.div_small by lia. reflexivity.
Qed.

Lemma slice_from_0 {A : Type} (l : list A) (stop : Z) :
  0 <= stop -> slice l 0 stop = take (Z.to_nat stop) l.
Proof.
  intros H. unfold slice, clamp_index.
  replace (stop <? 0) with false by (symmetry; apply Z.ltb_ge; lia).
  cbn [Z.ltb Z.compare]. rewrite (Z.min_l 0) by lia.
  change (drop (Z.to_nat 0) l) with l.
  rewrite Z.sub_0_r. destruct (Z.le_ge_cases stop (Z.of_nat (length l))).
  - rewrite Z.min_l by lia. reflexivity.
  - rewrite Z.min_r by lia. rewrite Nat2Z.id.
    rewrite !take_ge by lia. reflexivity.
Qed.

Lemma slice_whole {A : Type} (l : list A) (stop : Z) :
  Z.of_nat (length l) <= stop -> slice l 0 stop = l.
Proof. intros H. rewrite slice_from_0 by lia. apply take_ge. lia. Qed.

(** A table of at most [chunk_size] rows is exported in one iteration:
    one file, holding the table cut to [max_rows] rows. *)
Lemma create_single_excel_one_chunk (data : DataFrame) (max_rows : Z)
    (fs : filesystem) :
  0 < Z.of_nat (length data) <= chunk_size -> 0 <= max_rows ->
  create_single_excel data (Some max_rows) fs
  = ([first_path],
     to_excel (if Z.of_nat (length data) >? max_rows
               then take (Z.to_nat max_rows) data else data)
       first_path (makedirs_exist_ok temp_dir fs)).
Proof.
  intros Hlen Hmax. unfold create_single_excel.
  rewrite range_single by assumption. cbn [fold_left default export_chunk].
  change (0 + chunk_size) with chunk_size. rewrite slice_whole by lia.
  rewrite slice_from_0 by assumption. reflexivity.
Qed.

Lemma chunks_one (data : DataFrame) (p : string) (fs : filesystem) :
  chunks ([p], to_excel data p fs) = [data].
Proof.
  unfold chunks, to_excel. cbn [fst snd files omap list_omap].
  rewrite lookup_insert_eq. reflexivity.
Qed.

(** C1 on the code: 300 rows exported with 100 rows per sheet give one
    file with the first 100 rows; the other 200 rows are in no chunk. *)
Theorem export_300_rows_by_100_truncates :
  let out := create_single_excel table_300 (Some 100) empty_fs in
  fst out = [first_path]
  /\ chunks out = [take 100 table_300]
  /\ length (concat (chunks out)) = 100%nat
  /\ concat (chunks out) <> table_300.
Proof.
  cbv zeta. rewrite create_single_excel_one_chunk by (vm_compute; try split; congruence).
  rewrite chunks_one. repeat split.
  intros H. apply (f_equal length) in H. vm_compute in H. discriminate.
Qed.

Lemma export_ready_empty_fs : export_ready empty_fs.
Proof. split; [reflexivity|]. intros n. apply not_elem_of_empty. Qed.






(** *** Frequency summary *)

(** **** Tokens are the maximal runs of word characters *)

Lemma flush_app (run : string) (l1 l2 : list string) :
  flush run (l1 ++ l2) = flush run l1 ++ l2.
Proof. destruct run; reflexivity. Qed.

Lemma findall_words_from_split (a : string) :
  forall (run : string) (c : ascii) (b : string),
    is_word c = false ->
    findall_words_from run (a +:+ String c b)
    = findall_words_from run a ++ findall_words b.
Proof.
  induction a as [|x a IH]; intros run c b Hc.
  - change ("" +:+ String c b) with (String c b).
    cbn [findall_words_from]. rewrite Hc. apply (flush_app run []).
  - change (String x a +:+ String c b) with (String x (a +:+ String c b)).
    cbn [findall_words_from]. destruct (is_word x).
    + apply IH, Hc.
    + rewrite IH by assumption. apply flush_app.
Qed.

Lemma findall_words_from_run (w : string) :
  forall run : string,
    all_word w -> run +:+ w <> "" ->
    findall_words_from run w = [run +:+ w].
Proof.
  induction w as [|x w IH]; intros run Hw Hne.
  - rewrite append_empty_r in *. destruct run; [contradiction|reflexivity].
  - unfold all_word in Hw. cbn [string_exists] in Hw.
    apply orb_false_elim in Hw as [Hx Hw]. apply negb_false_iff in Hx.
    cbn [findall_words_from]. rewrite Hx.
    assert (Heq : (run +:+ String x "") +:+ w = run +:+ String x w).
    { clear. induction run as [|c run IH]; [reflexivity|].
      change ((String c run +:+ String x "") +:+ w)
        with (String c ((run +:+ String x "") +:+ w)).
      rewrite IH. reflexivity. }
    rewrite IH; [rewrite Heq; reflexivity | exact Hw | rewrite Heq; exact Hne].
Qed.

(** X11: the tokenizer is determined by three equations: nothing in the empty
    text, a run of word characters is one token, and a character that is
    not a word character separates the tokens on its two sides. *)
Lemma findall_words_maximal_runs :
  findall_words "" = []
  /\ (forall w, all_word w -> w <> "" -> findall_words w = [w])
  /\ (forall a c b, is_word c = false ->
        findall_words (a +:+ String c b) = findall_words a ++ findall_words b).
Proof.
  split; [reflexivity|]. split.
  - intros w Hw Hne. apply (findall_words_from_run w ""); assumption.
  - intros a c b Hc. apply findall_words_from_split, Hc.
Qed.

(** **** The counter: one item per token, in first-seen order *)

Lemma Counter_snoc (l : list string) (w : string) :
  Counter (l ++ [w]) = counter_incr w (Counter l).
Proof. unfold Counter. rewrite fold_left_app. reflexivity. Qed.

Lemma counter_incr_keys_in (w : string) (d : list (string * nat)) :
  In w (map fst d) -> map fst (counter_incr w d) = map fst d.
Proof.
  induction d as [|[k v] d IH]; simpl; [contradiction|].
  intros H. destruct (String.eqb_spec k w) as [->|Hne]; simpl; [reflexivity|].
  destruct H as [H|H]; [contradiction|]. rewrite IH by assumption. reflexivity.
Qed.

Lemma counter_incr_keys_new (w : string) (d : list (string * nat)) :
  ~ In w (map fst d) -> map fst (counter_incr w d) = map fst d ++ [w].
Proof.
  induction d as [|[k v] d IH]; simpl; [reflexivity|].
  intros H. destruct (String.eqb_spec k w) as [->|Hne]; [tauto|].
  simpl. rewrite IH by tauto. reflexivity.
Qed.

Lemma counter_get_incr (w : string) (d : list (string * nat)) (k : string) :
  counter_get (counter_incr w d) k
  = if String.eqb w k then S (counter_get d k) else counter_get d k.
Proof.
  induction d as [|[k' v] d IH]; simpl.
  - destruct (String.eqb w k); reflexivity.
  - destruct (String.eqb_spec k' w) as [->|Hne]; simpl.
    + destruct (String.eqb w k); reflexivity.
    + rewrite IH. destruct (String.eqb_spec k' k) as [->|Hne']; [|reflexivity].
      destruct (String.eqb_spec w k); [congruence|reflexivity].
Qed.

Lemma counter_get_absent (d : list (string * nat)) (k : string) :
  ~ In k (map fst d) -> counter_get d k = 0%nat.
Proof.
  induction d as [|[k' v] d IH]; simpl; [reflexivity|].
  intros H. destruct (String.eqb_spec k' k); [tauto|]. apply IH. tauto.
Qed.

Lemma counter_get_item (d : list (string * nat)) (k : string) (v : nat) :
  NoDup (map fst d) -> In (k, v) d -> counter_get d k = v.
Proof.
  induction d as [|[k' v'] d IH]; simpl; [contradiction|].
  intros Hnd [H|H].
  - injection H as -> ->. rewrite String.eqb_refl. reflexivity.
  - apply NoDup_cons_1_1 in Hnd as Hk'. apply NoDup_cons_1_2 in Hnd.
    destruct (String.eqb_spec k' k) as [->|Hne]; [|apply IH; assumption].
    exfalso. apply Hk'. apply list_elem_of_In, in_map_iff.
    exists (k, v). split; [reflexivity|assumption].
Qed.

Lemma occurrences_snoc (k w : string) (l : list string) :
  occurrences k (l ++ [w])
  = (occurrences k l + if String.eqb k w then 1 else 0)%nat.
Proof.
  unfold occurrences. rewrite List.filter_app, List.length_app. simpl.
  destruct (String.eqb k w); reflexivity.
Qed.

Lemma occurrences_pos (k : string) (l : list string) :
  In k l <-> (0 < occurrences k l)%nat.
Proof.
  unfold occurrences. induction l as [|x l IH]; simpl; [lia|].
  destruct (String.eqb_spec k x) as [->|Hne]; simpl.
  - split; [lia|auto].
  - rewrite <- IH. split; [intros [H|H]; congruence|auto].
Qed.

Lemma first_index_app_in (k : string) (l l' : list string) :
  In k l -> first_index k (l ++ l') = first_index k l.
Proof.
  induction l as [|x l IH]; simpl; [contradiction|].
  intros H. destruct (String.eqb_spec x k); [reflexivity|].
  rewrite IH; [reflexivity|]. destruct H; [contradiction|assumption].
Qed.

Lemma first_index_lt (k : string) (l : list string) :
  In k l -> (first_index k l < length l)%nat.
Proof.
  induction l as [|x l IH]; simpl; [contradiction|].
  intros H. destruct (String.eqb_spec x k); [lia|].
  destruct H; [contradiction|]. apply IH in H. lia.
Qed.

Lemma first_index_app_new (k : string) (l l' : list string) :
  ~ In k l -> first_index k (l ++ l') = (length l + first_index k l')%nat.
Proof.
  induction l as [|x l IH]; simpl; [reflexivity|].
  intros H. destruct (String.eqb_spec x k); [tauto|].
  rewrite IH by tauto. reflexivity.
Qed.

Lemma StronglySorted_change {A : Type} (R R' : A -> A -> Prop) (l : list A) :
  (forall x y, In x l -> In y l -> R x y -> R' x y) ->
  StronglySorted R l -> StronglySorted R' l.
Proof.
  intros Himp Hs. induction Hs as [|a l Hs IH Hall]; constructor.
  - apply IH. intros x y Hx Hy. apply Himp; right; assumption.
  - rewrite List.Forall_forall in *. intros y Hy.
    apply Himp; [left; reflexivity | right; assumption | apply Hall, Hy].
Qed.

Lemma StronglySorted_snoc {A : Type} (R : A -> A -> Prop) (l : list A) (a : A) :
  StronglySorted R l -> (forall x, In x l -> R x a) ->
  StronglySorted R (l ++ [a]).
Proof.
  intros Hs Ha. apply StronglySorted_app. split; [|split].
  - intros x1 x2 H1 H2. apply list_elem_of_In in H1.
    apply list_elem_of_singleton in H2 as ->. apply Ha, H1.
  - exact Hs.
  - repeat constructor.
Qed.

Lemma Counter_invariant (l : list string) :
  NoDup (map fst (Counter l))
  /\ (forall k, counter_get (Counter l) k = occurrences k l)
  /\ (forall k, In k (map fst (Counter l)) <-> In k l)
  /\ StronglySorted (fun a b => (first_index a l < first_index b l)%nat)
       (map fst (Counter l)).
Proof.
  induction l as [|w l (Hnd & Hget & Hkeys & Hsort)] using rev_ind.
  - repeat split; try constructor; simpl; tauto.
  - rewrite Counter_snoc.
    assert (Hget' : forall k, counter_get (counter_incr w (Counter l)) k
                              = occurrences k (l ++ [w])).
    { intros k. rewrite counter_get_incr, occurrences_snoc, Hget.
      rewrite String.eqb_sym. destruct (String.eqb k w); lia. }
    destruct (in_dec string_dec w (map fst (Counter l))) as [Hin|Hnin].
    + rewrite counter_incr_keys_in by assumption.
      split; [exact Hnd|]. split; [exact Hget'|]. split.
      * intros k. rewrite Hkeys, in_app_iff. simpl.
        split; [tauto|]. intros [H|[<-|[]]]; [exact H|apply Hkeys, Hin].
      * eapply StronglySorted_change; [|exact Hsort].
        intros x y Hx Hy Hxy. cbv beta.
        rewrite !first_index_app_in by (apply Hkeys; assumption). exact Hxy.
    + rewrite counter_incr_keys_new by assumption.
      assert (Hwl : ~ In w l) by (rewrite <- Hkeys; exact Hnin).
      split; [|split; [exact Hget'|split]].
      * apply NoDup_app. split; [exact Hnd|]. split; [|repeat constructor].
        intros x Hx Hx'. apply list_elem_of_singleton in Hx' as ->.
        apply Hnin, list_elem_of_In, Hx. inversion 1.
      * intros k. rewrite !in_app_iff, Hkeys. reflexivity.
      * apply StronglySorted_snoc.
        -- eapply StronglySorted_change; [|exact Hsort].
           intros x y Hx Hy Hxy. cbv beta.
           rewrite !first_index_app_in by (apply Hkeys; assumption). exact Hxy.
        -- intros x Hx. apply Hkeys in Hx.
           rewrite first_index_app_in by assumption.
           rewrite first_index_app_new by assumption.
           apply first_index_lt in Hx. lia.
Qed.

(** **** The ranking: stable sort by count, largest first *)

Lemma insert_by_count_perm (x : string * nat) (l : list (string * nat)) :
  Permutation (insert_by_count x l) (x :: l).
Proof.
  induction l as [|y l IH]; simpl; [reflexivity|].
  destruct (snd x <? snd y)%nat; [|reflexivity].
  rewrite IH. apply perm_swap.
Qed.

Lemma sorted_by_count_perm (d : list (string * nat)) :
  Permutation (sorted_by_count d) d.
Proof.
  induction d as [|x d IH]; simpl; [reflexivity|].
  rewrite insert_by_count_perm, IH. reflexivity.
Qed.

Lemma insert_by_count_sorted (toks : list string) (x : string * nat)
    (l : list (string * nat)) :
  StronglySorted (item_before toks) l ->
  (forall y, In y l ->
     (first_index (fst x) toks < first_index (fst y) toks)%nat) ->
  StronglySorted (item_before toks) (insert_by_count x l).
Proof.
  induction l as [|y l IH]; intros Hs Hx; simpl.
  - repeat constructor.
  - apply StronglySorted_inv in Hs as [Hs Hy].
    rewrite List.Forall_forall in Hy.
    destruct (Nat.ltb_spec (snd x) (snd y)) as [Hlt|Hge].
    + constructor.
      * apply IH; [exact Hs|]. intros z Hz. apply Hx. right. exact Hz.
      * apply List.Forall_forall. intros z Hz.
        apply (Permutation_in _ (insert_by_count_perm x l)) in Hz.
        destruct Hz as [<-|Hz]; [left; exact Hlt | apply Hy, Hz].
    + constructor; [constructor; [exact Hs | apply List.Forall_forall, Hy]|].
      apply List.Forall_forall. intros z Hz.
      assert (Hle : (snd z <= snd x)%nat).
      { destruct Hz as [<-|Hz]; [exact Hge|].
        destruct (Hy z Hz) as [H|[H _]]; lia. }
      specialize (Hx z Hz). unfold item_before.
      destruct (Nat.eq_dec (snd x) (snd z)); [right; split; assumption | left; lia].
Qed.

Lemma sorted_by_count_sorted (toks : list string) (d : list (string * nat)) :
  StronglySorted
    (fun a b => (first_index (fst a) toks < first_index (fst b) toks)%nat) d ->
  StronglySorted (item_before toks) (sorted_by_count d).
Proof.
  induction 1 as [|x d Hs IH Hx]; simpl; [constructor|].
  apply insert_by_count_sorted; [exact IH|].
  rewrite List.Forall_forall in Hx. intros y Hy. apply Hx.
  apply (Permutation_in _ (sorted_by_count_perm d)), Hy.
Qed.

Lemma StronglySorted_map_inv {A B : Type} (f : A -> B) (R : B -> B -> Prop)
    (l : list A) :
  StronglySorted R (map f l) -> StronglySorted (fun a b => R (f a) (f b)) l.
Proof.
  induction l as [|a l IH]; simpl; intros Hs; [constructor|].
  apply StronglySorted_inv in Hs as [Hs Ha]. constructor; [apply IH, Hs|].
  rewrite List.Forall_forall in *. intros y Hy. apply Ha, in_map, Hy.
Qed.

Lemma StronglySorted_map {A B : Type} (f : A -> B) (R : B -> B -> Prop)
    (l : list A) :
  StronglySorted (fun a b => R (f a) (f b)) l -> StronglySorted R (map f l).
Proof.
  induction 1 as [|a l Hs IH Ha]; simpl; constructor; [exact IH|].
  rewrite List.Forall_forall in *. intros y Hy.
  apply in_map_iff in Hy as (b & <- & Hb). apply Ha, Hb.
Qed.

Section Ranking.

Context (data : DataFrame).

Let toks : list string := tokens data.
Let items : list (string * nat) := sorted_by_count (Counter toks).

Lemma common_words_split :
  items = common_words data ++ drop 20 items.
Proof. symmetry. apply take_drop. Qed.

Lemma items_count (w : string) (c : nat) :
  In (w, c) items -> c = occurrences w toks /\ In w toks.
Proof.
  intros H. apply (Permutation_in _ (sorted_by_count_perm _)) in H.
  destruct (Counter_invariant toks) as (Hnd & Hget & Hkeys & _). split.
  - rewrite <- Hget. symmetry. apply counter_get_item; assumption.
  - apply Hkeys, in_map_iff. exists (w, c). split; [reflexivity|exact H].
Qed.

Lemma items_sorted : StronglySorted (item_before toks) items.
Proof.
  apply sorted_by_count_sorted.
  destruct (Counter_invariant toks) as (_ & _ & _ & Hs).
  apply StronglySorted_map_inv in Hs. exact Hs.
Qed.

Lemma items_keys_NoDup : NoDup (map fst items).
Proof.
  destruct (Counter_invariant toks) as (Hnd & _).
  assert (Hp : Permutation (map fst items) (map fst (Counter toks)))
    by apply Permutation_map, sorted_by_count_perm.
  rewrite Hp. exact Hnd.
Qed.

Lemma item_before_ranked (a b : string * nat) :
  In a items -> In b items -> item_before toks a b ->
  ranked_before toks (fst a) (fst b).
Proof.
  destruct a as [w1 c1], b as [w2 c2]. intros Ha Hb.
  apply items_count in Ha as [-> _]. apply items_count in Hb as [-> _].
  trivial.
Qed.

Lemma token_in_items (w : string) :
  In w toks -> exists c, In (w, c) items.
Proof.
  intros Hw. destruct (Counter_invariant toks) as (_ & _ & Hkeys & _).
  apply Hkeys, in_map_iff in Hw as ([w' c] & Heq & Hin). simpl in Heq. subst w'.
  exists c. apply (Permutation_in _ (Permutation_sym (sorted_by_count_perm _))).
  exact Hin.
Qed.

End Ranking.

(** C3, as the code has it: the summary is the list of the tokens of
    the (at most) 20 most common (token, count) pairs, the counts left
    out.  The tokens are distinct tokens of the text, a count is the
    number of occurrences of the token with its letter case, tokens come
    by count, largest first, and among equal counts by first appearance,
    and a token left out is ranked after every token listed.  On the
    bodies [cat dog cat] and [dog bird] the result is [cat], [dog],
    [bird]. *)
Theorem word_cloud_ranking (data : DataFrame) :
  let toks := tokens data in
  let res := generate_word_cloud data in
  res = map fst (common_words data)
  /\ (forall w c, In (w, c) (common_words data) -> c = occurrences w toks)
  /\ (length res <= 20)%nat
  /\ NoDup res
  /\ (forall w, In w res -> In w toks)
  /\ StronglySorted (ranked_before toks) res
  /\ (forall w, In w toks -> ~ In w res ->
        length res = 20%nat
        /\ forall w', In w' res -> ranked_before toks w' w)
  /\ generate_word_cloud two_reviews = ["cat"; "dog"; "bird"].
Proof.
  intros toks res.
  pose proof (common_words_split data) as Hsplit.
  pose proof (items_sorted data) as Hsorted.
  pose proof (items_keys_NoDup data) as Hnd.
  set (items := sorted_by_count (Counter (tokens data))) in *.
  assert (Hcw : forall x, In x (common_words data) -> In x items).
  { intros x Hx. rewrite Hsplit. apply in_or_app. left. exact Hx. }
  assert (Hres : forall w, In w res -> exists c, In (w, c) (common_words data)).
  { intros w Hw. apply in_map_iff in Hw as ([w' c] & Heq & Hin).
    simpl in Heq. subst w'. exists c. exact Hin. }
  split; [reflexivity|]. split.
  { intros w c H. apply (items_count data), Hcw, H. }
  split.
  { subst res. unfold generate_word_cloud, common_words, most_common.
    rewrite List.length_map, length_take. lia. }
  split.
  { rewrite Hsplit, map_app in Hnd. apply NoDup_app in Hnd as [H _]. exact H. }
  split.
  { intros w Hw. apply Hres in Hw as [c Hc].
    apply (items_count data w c), Hcw, Hc. }
  split.
  { apply StronglySorted_map. rewrite Hsplit in Hsorted.
    apply StronglySorted_app_1_l in Hsorted.
    eapply StronglySorted_change; [|exact Hsorted].
    intros x y Hx Hy. apply item_before_ranked; apply Hcw; assumption. }
  split; [|reflexivity].
  intros w Hw Hnot. destruct (token_in_items data w Hw) as [c Hc].
  fold items in Hc. assert (Hdrop : In (w, c) (drop 20 items)).
  { rewrite Hsplit in Hc. apply in_app_or in Hc as [Hc|Hc]; [|exact Hc].
    exfalso. apply Hnot. apply in_map_iff. exists (w, c). split; trivial. }
  split.
  - subst res. change (generate_word_cloud data) with (map fst (take 20 items)).
    rewrite List.length_map, length_take.
    destruct (Nat.le_gt_cases (length items) 20) as [Hle|Hgt]; [|lia].
    rewrite drop_ge in Hdrop by exact Hle. destruct Hdrop.
  - intros w' Hw'. apply Hres in Hw' as [c' Hc'].
    apply (item_before_ranked data (w', c') (w, c)).
    + apply Hcw, Hc'.
    + exact Hc.
    + rewrite Hsplit in Hsorted.
      eapply StronglySorted_app_1_elem_of; [exact Hsorted | |];
        apply list_elem_of_In; assumption.
Qed.

(** C3 as stated fails: the summary holds tokens, not (token, count)
    pairs. *)
Lemma word_cloud_returns_tokens_not_pairs :
  py_words (generate_word_cloud two_reviews)
  <> py_pairs [("cat", 2); ("dog", 2); ("bird", 1)].
Proof. vm_compute. discriminate. Qed.

(** ** Further properties of the pipeline *)

(** *** Sentiment filter: which rows are kept *)

Lemma filter_ok_label (data t : DataFrame) (s : string) :
  filter_data_by_sentiment data s = Ok t -> s = "positive" \/ s = "negative".
Proof.
  intros H. destruct (decide (s = "positive")) as [|Hp]; [left; assumption|].
  destruct (decide (s = "negative")) as [|Hn]; [right; assumption|].
  rewrite filter_unrecognized in H by assumption. discriminate.
Qed.

(** X1: the table the filter returns is the table with the rows of
    another polarity code taken out, and nothing else changed: every row
    of the mapped code is kept, as often as it occurs and in its place,
    and no other row is kept. *)
Theorem filter_keeps_exactly (data t : DataFrame) (s : string) :
  filter_data_by_sentiment data s = Ok t ->
  exists code,
    (s = "positive" /\ code = 2 \/ s = "negative" /\ code = 1)
    /\ t = List.filter (fun r => polarity r =? code) data
    /\ forall r, In r t <-> In r data /\ polarity r = code.
Proof.
  intros H. destruct (filter_ok_label _ _ _ H) as [-> | ->].
  - rewrite filter_positive in H. injection H as <-. exists 2.
    split; [left; split; reflexivity|]. split; [reflexivity|]. intros r.
    rewrite filter_In, Z.eqb_eq. reflexivity.
  - rewrite filter_negative in H. injection H as <-. exists 1.
    split; [right; split; reflexivity|]. split; [reflexivity|]. intros r.
    rewrite filter_In, Z.eqb_eq. reflexivity.
Qed.

Lemma filter_keeps_exactly_witness :
  exists code,
    ("negative" = "positive" /\ code = 2 \/ "negative" = "negative" /\ code = 1)
    /\ [mkRow 1 "Sore" "My arms hurt"]
       = List.filter (fun r => polarity r =? code) reviews_3
    /\ forall r, In r [mkRow 1 "Sore" "My arms hurt"]
                 <-> In r reviews_3 /\ polarity r = code.
Proof.
  apply (filter_keeps_exactly reviews_3 [mkRow 1 "Sore" "My arms hurt"] "negative").
  reflexivity.
Defined.

Lemma filter_disjoint_codes (c1 c2 : Z) (data : DataFrame) :
  c1 <> c2 ->
  List.filter (fun r => polarity r =? c2)
    (List.filter (fun r => polarity r =? c1) data) = [].
Proof.
  intros Hne. induction data as [|r data IH]; simpl; [reflexivity|].
  destruct (Z.eqb_spec (polarity r) c1) as [H1|H1]; simpl; [|exact IH].
  destruct (Z.eqb_spec (polarity r) c2) as [H2|H2]; [congruence|exact IH].
Qed.

(** X2: filtering by one label and then by the other leaves no row. *)
Theorem filter_other_label_empty (data t : DataFrame) (s1 s2 : string) :
  filter_data_by_sentiment data s1 = Ok t ->
  s2 = "positive" \/ s2 = "negative" -> s1 <> s2 ->
  filter_data_by_sentiment t s2 = Ok [].
Proof.
  intros H1 H2 Hne. destruct (filter_ok_label _ _ _ H1) as [-> | ->];
    destruct H2 as [-> | ->]; try contradiction.
  - rewrite filter_positive in H1. injection H1 as <-.
    rewrite filter_negative, filter_disjoint_codes by lia. reflexivity.
  - rewrite filter_negative in H1. injection H1 as <-.
    rewrite filter_positive, filter_disjoint_codes by lia. reflexivity.
Qed.

Lemma filter_other_label_empty_witness :
  filter_data_by_sentiment
    [mkRow 2 "Great" "Loved the smile on his face"; mkRow 2 "Fine" "Does the job"]
    "negative" = Ok [].
Proof.
  apply (filter_other_label_empty reviews_3 _ "positive" "negative").
  - reflexivity.
  - right. reflexivity.
  - discriminate.
Defined.

(** X3: on any table, also one with polarity codes other than 1 and 2, the
    rows split three ways: the positive rows, the negative rows, and the
    rows of another code, which neither label returns. *)
Theorem filter_rows_of_other_codes (data : DataFrame) :
  exists pos neg,
    filter_data_by_sentiment data "positive" = Ok pos
    /\ filter_data_by_sentiment data "negative" = Ok neg
    /\ (length pos + length neg + length (List.filter other_code data)
        = length data)%nat
    /\ forall r, In r data -> other_code r = true -> ~ In r pos /\ ~ In r neg.
Proof.
  eexists _, _. split; [apply filter_positive|]. split; [apply filter_negative|].
  split.
  - induction data as [|r data IH]; simpl; [reflexivity|].
    unfold other_code at 1.
    destruct (Z.eqb_spec (polarity r) 1) as [H1|H1];
      destruct (Z.eqb_spec (polarity r) 2) as [H2|H2]; simpl; lia.
  - intros r _ Hr. unfold other_code in Hr.
    apply andb_prop in Hr as [H1 H2].
    apply negb_true_iff in H1, H2. rewrite !filter_In. split; intros [_ H]; congruence.
Qed.

(** *** Search: a row-wise selection *)

Lemma filter_all_true {A : Type} (l : list A) :
  List.filter (fun _ => true) l = l.
Proof. induction l as [|x l IH]; simpl; [|rewrite IH]; reflexivity. Qed.

Lemma filter_comm {A : Type} (p q : A -> bool) (l : list A) :
  List.filter p (List.filter q l) = List.filter q (List.filter p l).
Proof.
  induction l as [|x l IH]; simpl; [reflexivity|].
  destruct (p x) eqn:Hp, (q x) eqn:Hq; simpl; rewrite ?Hp, ?Hq, IH; reflexivity.
Qed.

(** For a given engine, database content and query, the search either
    raises on every table or is the selection of the rows that satisfy
    one predicate. *)
Lemma search_outcome (re_outside : string -> result (string -> bool))
    (wn : wordnet) (w : string) :
  (exists e, forall wn' data, db wn' = db wn ->
      fst (find_similar_words re_outside wn' data w) = Raise e)
  \/ (exists keep, forall wn' data, db wn' = db wn ->
      fst (find_similar_words re_outside wn' data w)
      = Ok (List.filter keep data, synonyms_of wn w)).
Proof.
  destruct w as [|c w].
  - right. exists (fun _ => true). intros wn' data _. simpl.
    rewrite filter_all_true. reflexivity.
  - unfold find_similar_words, synonyms_of, synsets, str_contains. cbn [fst].
    destruct (re_compile re_outside
                (str_join "|"
                   (flat_map (fun syn => map lemma_name (lemmas syn))
                      (db wn (String c w))))) as [f|e] eqn:Hc.
    + right. exists (fun r => f (text r)). intros wn' data ->.
      rewrite Hc. cbn [bind]. rewrite mask_select_column. reflexivity.
    + left. exists e. intros wn' data ->. rewrite Hc. reflexivity.
Qed.

Lemma find_similar_words_db (re_outside : string -> result (string -> bool))
    (wn : wordnet) (data : DataFrame) (w : string) :
  db (snd (find_similar_words re_outside wn data w)) = db wn.
Proof. destruct w; reflexivity. Qed.

(** X5: whether the search raises, and which rows it keeps, does not depend
    on the other rows of the table: the search of a concatenation is the
    concatenation of the searches. *)
Theorem search_distributes_over_concatenation
    (re_outside : string -> result (string -> bool))
    (wn : wordnet) (d1 d2 : DataFrame) (w : string) :
  fst (find_similar_words re_outside wn (d1 ++ d2) w)
  = bind (fst (find_similar_words re_outside wn d1 w)) (fun '(t1, syn) =>
    bind (fst (find_similar_words re_outside wn d2 w)) (fun '(t2, _) =>
    Ok (t1 ++ t2, syn))).
Proof.
  destruct (search_outcome re_outside wn w) as [[e He]|[keep Hk]].
  - rewrite !He by reflexivity. reflexivity.
  - rewrite !Hk by reflexivity. cbn [bind]. rewrite List.filter_app. reflexivity.
Qed.

(** X6: searching the filtered table and filtering the searched table give
    the same outcome, for a recognized label. *)
Theorem search_filter_commute (re_outside : string -> result (string -> bool))
    (wn : wordnet) (data : DataFrame) (w s : string) :
  s = "positive" \/ s = "negative" ->
  bind (filter_data_by_sentiment data s)
    (fun t => fst (find_similar_words re_outside wn t w))
  = bind (fst (find_similar_words re_outside wn data w)) (fun '(t, syn) =>
    bind (filter_data_by_sentiment t s) (fun t' => Ok (t', syn))).
Proof.
  intros Hs. destruct (filter_recognized data s Hs) as (code & _ & Hf).
  destruct (filter_ok_inv _ _ _ Hf) as (code' & _ & Hall).
  rewrite Hall. cbn [bind].
  destruct (search_outcome re_outside wn w) as [[e He]|[keep Hk]].
  - rewrite !He by reflexivity. reflexivity.
  - rewrite !Hk by reflexivity. cbn [bind]. rewrite Hall. cbn [bind].
    rewrite filter_comm. reflexivity.
Qed.

Lemma search_filter_commute_witness :
  bind (filter_data_by_sentiment reviews_3 "negative")
    (fun t => fst (find_similar_words re_outside_sample wordnet_am t "a.m."))
  = bind (fst (find_similar_words re_outside_sample wordnet_am reviews_3 "a.m."))
      (fun '(t, syn) =>
         bind (filter_data_by_sentiment t "negative") (fun t' => Ok (t', syn))).
Proof.
  apply (search_filter_commute re_outside_sample wordnet_am reviews_3 "a.m."
           "negative").
  right. reflexivity.
Defined.

(** X7: searching the result again for the same word changes nothing. *)
Theorem search_idempotent (re_outside : string -> result (string -> bool))
    (wn wn' : wordnet) (data t : DataFrame) (w : string) (syn : list string) :
  find_similar_words re_outside wn data w = (Ok (t, syn), wn') ->
  fst (find_similar_words re_outside wn' t w) = Ok (t, syn).
Proof.
  intros H.
  assert (Hdb : db wn' = db wn).
  { rewrite <- (find_similar_words_db re_outside wn data w), H. reflexivity. }
  apply (f_equal fst) in H. cbn [fst] in H.
  destruct (search_outcome re_outside wn w) as [[e He]|[keep Hk]].
  - rewrite He in H by reflexivity. discriminate.
  - rewrite Hk in H by reflexivity. injection H as <- <-.
    rewrite Hk by exact Hdb. rewrite filter_twice. reflexivity.
Qed.

Lemma search_idempotent_witness :
  fst (find_similar_words re_outside_sample
         (mkWordnet (db wordnet_am) ["a.m."])
         [mkRow 1 "Sore" "My arms hurt"] "a.m.")
  = Ok ([mkRow 1 "Sore" "My arms hurt"], synonyms_of wordnet_am "a.m.").
Proof.
  apply (search_idempotent re_outside_sample wordnet_am _ reviews_3 _ "a.m.").
  reflexivity.
Defined.

(** *** Search: when the pattern compiles *)

Lemma parse_go_balanced (pat : string) :
  forall (st : list frame) (f : frame),
    match parse_go st f pat with
    | Ok _ => balanced (length st) pat = true
    | Raise _ => balanced (length st) pat = false
    end.
Proof.
  induction pat as [|c pat IH]; intros st f; cbn [parse_go balanced].
  - destruct st; reflexivity.
  - destruct (Ascii.eqb c "("); [apply (IH (f :: st))|].
    destruct (Ascii.eqb c ")").
    + destruct st as [|f' st]; [reflexivity|apply IH].
    + destruct (Ascii.eqb c "|"); [apply IH|].
      destruct (Ascii.eqb c "."); apply IH.
Qed.

Lemma balanced_without_parens (pat : string) :
  forall depth : nat,
    string_exists is_paren pat = false ->
    balanced depth pat = Nat.eqb depth 0.
Proof.
  induction pat as [|c pat IH]; intros depth H; [reflexivity|].
  cbn [string_exists] in H. apply orb_false_elim in H as [Hc H].
  unfold is_paren in Hc. apply orb_false_elim in Hc as [H1 H2].
  cbn [balanced]. rewrite H1, H2. apply IH, H.
Qed.

(** X8: for a query whose joined synonyms stay inside the embedded
    pattern language, the search raises on every table when the
    parentheses of the joined synonyms are not balanced, and it does not
    raise when the synonyms hold no parenthesis at all. *)
Theorem search_raises_when_unbalanced
    (re_outside : string -> result (string -> bool))
    (wn : wordnet) (data : DataFrame) (w : string) :
  w <> "" ->
  string_exists outside_fragment (str_join "|" (synonyms_of wn w)) = false ->
  (balanced 0 (str_join "|" (synonyms_of wn w)) = false ->
   exists e, fst (find_similar_words re_outside wn data w) = Raise e)
  /\ (string_exists is_paren (str_join "|" (synonyms_of wn w)) = false ->
      exists t,
        fst (find_similar_words re_outside wn data w)
        = Ok (t, synonyms_of wn w)).
Proof.
  intros Hw Hin. destruct w as [|c w]; [contradiction|].
  unfold find_similar_words, synsets, str_contains, re_compile. cbn [fst].
  unfold synonyms_of in *. rewrite Hin. unfold parse.
  pose proof (parse_go_balanced
                (str_join "|"
                   (flat_map (fun syn => map lemma_name (lemmas syn))
                      (db wn (String c w)))) [] new_frame) as Hb.
  destruct (parse_go [] new_frame _) as [r|e]; cbn [length] in Hb; cbn [bind].
  - split.
    + intros H. congruence.
    + intros _. eexists. reflexivity.
  - split.
    + intros _. exists e. reflexivity.
    + intros H. rewrite (balanced_without_parens _ 0 H) in Hb. discriminate.
Qed.

Lemma search_raises_when_unbalanced_witness :
  (balanced 0 (str_join "|" (synonyms_of wordnet_smiley "smile")) = false ->
   exists e, fst (find_similar_words re_outside_sample wordnet_smiley reviews_3
                    "smile") = Raise e)
  /\ (string_exists is_paren (str_join "|" (synonyms_of wordnet_smiley "smile"))
      = false ->
      exists t,
        fst (find_similar_words re_outside_sample wordnet_smiley reviews_3
               "smile")
        = Ok (t, synonyms_of wordnet_smiley "smile")).
Proof.
  apply (search_raises_when_unbalanced re_outside_sample wordnet_smiley
           reviews_3 "smile").
  - discriminate.
  - reflexivity.
Defined.

Lemma search_plain_terms_literal_witness :
  fst (find_similar_words re_outside_sample wordnet_smiley reviews_3 "")
  = Ok (reviews_3, [])
  /\ fst (find_similar_words re_outside_sample
            (mkWordnet (fun _ => [mkSynset [mkLemma "SMILE"; mkLemma "job"]]) [])
            reviews_3 "grin")
     = Ok ([mkRow 2 "Great" "Loved the smile on his face";
            mkRow 2 "Fine" "Does the job"], ["SMILE"; "job"]).
Proof.
  split; [reflexivity|].
  apply (search_plain_terms_literal re_outside_sample
           (mkWordnet (fun _ => [mkSynset [mkLemma "SMILE"; mkLemma "job"]]) [])
           reviews_3 "grin").
  - discriminate.
  - repeat constructor.
Defined.

(** *** Search: terms with dots lose no literal match *)

Lemma dotted_cons (c : ascii) (t : string) :
  dotted (String c t) ->
  (Ascii.eqb c "." = true \/ special c = false) /\ dotted t.
Proof.
  unfold dotted. cbn [string_exists]. intros H.
  apply orb_false_elim in H as [Hc Ht]. split; [|exact Ht].
  destruct (Ascii.eqb c "."); [left; reflexivity|right].
  rewrite andb_true_r in Hc. exact Hc.
Qed.

Lemma parse_go_dotted (t : string) :
  forall (st : list frame) (f : frame) (rest : string),
    dotted t ->
    parse_go st f (t +:+ rest)
    = parse_go st (mkFrame (alts f) (items (cur f) t)) rest.
Proof.
  induction t as [|c t IH]; intros st f rest Hd.
  - destruct f. reflexivity.
  - apply dotted_cons in Hd as [Hc Hd].
    change (String c t +:+ rest) with (String c (t +:+ rest)).
    cbn [parse_go items]. unfold item_of. destruct Hc as [Hc|Hc].
    + apply Ascii.eqb_eq in Hc. subst c. cbn [Ascii.eqb Bool.eqb].
      rewrite IH by assumption. reflexivity.
    + apply special_false in Hc as (_ & H1 & H2 & H3 & H4).
      rewrite H1, H2, H3, H4. rewrite IH by assumption. reflexivity.
Qed.

Lemma parse_go_join_dotted (ts : list string) :
  forall (f : frame) (t : string),
    Forall dotted (t :: ts) ->
    parse_go [] f (str_join "|" (t :: ts))
    = Ok (close_frame
            (fold_left items_frame ts (mkFrame (alts f) (items (cur f) t)))).
Proof.
  induction ts as [|t' ts IH]; intros f t Hall.
  - inversion Hall as [|? ? Ht _]; subst.
    change (str_join "|" [t]) with t.
    rewrite <- (append_empty_r t) at 1.
    rewrite parse_go_dotted by assumption. reflexivity.
  - inversion Hall as [|? ? Ht Hts]; subst.
    rewrite str_join_cons, parse_go_dotted by assumption.
    change ("|" +:+ str_join "|" (t' :: ts))
      with (String "|" (str_join "|" (t' :: ts))).
    cbn [parse_go Ascii.eqb Bool.eqb].
    rewrite IH by assumption. reflexivity.
Qed.

Lemma matches_items (t : string) :
  forall (r : regex) (s : string) (k : string -> bool),
    matches (items r t) s k = matches r s (fun s' => items_match t s' k).
Proof.
  induction t as [|c t IH]; intros r s k; cbn [items].
  - reflexivity.
  - rewrite IH. reflexivity.
Qed.

Lemma items_match_prefix (t : string) :
  forall s, items_match t s (fun _ => true) = pattern_prefix t s.
Proof.
  induction t as [|c t IH]; intros s; cbn [items_match pattern_prefix].
  - destruct s; reflexivity.
  - unfold item_of, char_match.
    destruct (Ascii.eqb c "."); destruct s as [|x s]; cbn [matches];
      try reflexivity; rewrite IH; reflexivity.
Qed.

Lemma matches_items_frames (ts : list string) :
  forall (f : frame) (s : string),
    matches (close_frame (fold_left items_frame ts f)) s (fun _ => true)
    = matches (close_frame f) s (fun _ => true)
      || existsb (fun t => pattern_prefix t s) ts.
Proof.
  induction ts as [|t ts IH]; intros f s; cbn [fold_left existsb].
  - rewrite orb_false_r. reflexivity.
  - rewrite IH. unfold items_frame. unfold close_frame at 1.
    cbn [alts cur next_alt matches].
    rewrite matches_items. cbn [matches]. rewrite items_match_prefix.
    rewrite orb_assoc. reflexivity.
Qed.

Lemma search_pattern_alternatives (r : regex) (ts : list string) :
  (forall s, matches r s (fun _ => true)
             = existsb (fun t => pattern_prefix t s) ts) ->
  forall s, search r s = existsb (fun t => pattern_contains t s) ts.
Proof.
  intros Hr. induction s as [|x s IH]; cbn [search].
  - rewrite Hr, orb_false_r. apply existsb_pointwise. intros t.
    cbn [pattern_contains]. rewrite orb_false_r. reflexivity.
  - rewrite Hr, IH, <- existsb_orb. reflexivity.
Qed.

Lemma dotted_inside (t : string) :
  dotted t -> string_exists outside_fragment t = false.
Proof.
  induction t as [|c t IH]; intros Hd; [reflexivity|].
  apply dotted_cons in Hd as [Hc Hd]. cbn [string_exists].
  rewrite IH by assumption. rewrite orb_false_r. destruct Hc as [Hc|Hc].
  - apply Ascii.eqb_eq in Hc. subst c. reflexivity.
  - apply special_false in Hc as [Hc _]. exact Hc.
Qed.

Lemma join_dotted_inside (ts : list string) :
  Forall dotted ts -> string_exists outside_fragment (str_join "|" ts) = false.
Proof.
  induction ts as [|t ts IH]; intros Hall; [reflexivity|].
  inversion Hall as [|? ? Ht Hts]; subst. destruct ts as [|t' ts].
  - apply dotted_inside, Ht.
  - rewrite str_join_cons, !string_exists_append.
    rewrite dotted_inside, IH by assumption. reflexivity.
Qed.

Lemma str_contains_dotted (re_outside : string -> result (string -> bool))
    (col terms : list string) :
  terms <> [] -> Forall dotted terms ->
  str_contains re_outside col (str_join "|" terms)
  = Ok (map (fun s => existsb (fun t => pattern_contains t s) terms) col).
Proof.
  intros Hne Hall. destruct terms as [|t ts]; [contradiction|].
  unfold str_contains, re_compile. rewrite join_dotted_inside by assumption.
  unfold parse. rewrite parse_go_join_dotted by assumption. cbn [bind]. f_equal.
  apply map_ext. intros s. apply search_pattern_alternatives. clear s. intros s.
  rewrite matches_items_frames. cbn [close_frame alts cur new_frame existsb].
  rewrite matches_items. cbn [matches]. rewrite items_match_prefix. reflexivity.
Qed.

Lemma eqb_ignore_case_char_match (c x : ascii) :
  eqb_ignore_case c x = true -> char_match c x = true.
Proof.
  unfold char_match. destruct (Ascii.eqb_spec c ".") as [->|_]; [|trivial].
  destruct x as [[] [] [] [] [] [] [] []]; vm_compute; congruence.
Qed.

Lemma prefix_ignore_case_pattern (t : string) :
  forall s, prefix_ignore_case t s = true -> pattern_prefix t s = true.
Proof.
  induction t as [|c t IH]; intros [|x s]; simpl; try congruence.
  intros H. apply andb_prop in H as [H1 H2].
  rewrite eqb_ignore_case_char_match, IH by assumption. reflexivity.
Qed.

Lemma contains_ignore_case_pattern (t s : string) :
  contains_ignore_case t s = true -> pattern_contains t s = true.
Proof.
  induction s as [|x s IH]; cbn [contains_ignore_case pattern_contains];
    intros H; apply orb_prop in H as [H|H].
  - rewrite prefix_ignore_case_pattern by assumption. reflexivity.
  - discriminate.
  - rewrite prefix_ignore_case_pattern by assumption. reflexivity.
  - rewrite IH by assumption. apply orb_true_r.
Qed.

(** X10: when the only special character in the synonyms is the dot (as in
    [a.m.]), the search does not raise and keeps every row whose body
    holds a synonym literally, letter case ignored; it may keep more. *)
Theorem search_dotted_terms_keep_literal_matches
    (re_outside : string -> result (string -> bool))
    (wn : wordnet) (data : DataFrame) (w : string) :
  synonyms_of wn w <> [] -> Forall dotted (synonyms_of wn w) ->
  exists t,
    fst (find_similar_words re_outside wn data w) = Ok (t, synonyms_of wn w)
    /\ forall r, In r data -> literal_match (synonyms_of wn w) r = true ->
         In r t.
Proof.
  intros Hne Hall. unfold find_similar_words. destruct w as [|c w].
  { contradiction Hne. reflexivity. }
  unfold synonyms_of in *. unfold synsets. cbn [db fst].
  rewrite str_contains_dotted by assumption. cbn [bind].
  rewrite mask_select_column. eexists. split; [reflexivity|].
  intros r Hr Hlit. apply filter_In. split; [exact Hr|].
  unfold literal_match in Hlit. apply existsb_exists in Hlit as (t & Ht & Hc).
  apply existsb_exists. exists t. split; [exact Ht|].
  apply contains_ignore_case_pattern, Hc.
Qed.

Lemma search_dotted_terms_keep_literal_matches_witness :
  exists t,
    fst (find_similar_words re_outside_sample wordnet_am
           [mkRow 2 "Early" "Up at 5 A.M. again"; mkRow 1 "Sore" "My arms hurt"]
           "a.m.")
    = Ok (t, synonyms_of wordnet_am "a.m.")
    /\ forall r,
         In r [mkRow 2 "Early" "Up at 5 A.M. again"; mkRow 1 "Sore" "My arms hurt"] ->
         literal_match (synonyms_of wordnet_am "a.m.") r = true -> In r t.
Proof.
  apply (search_dotted_terms_keep_literal_matches re_outside_sample wordnet_am).
  - discriminate.
  - repeat constructor.
Defined.

(** *** Frequency summary: tokens and counts *)

Lemma all_word_snoc (run : string) (c : ascii) :
  all_word run -> is_word c = true -> all_word (run +:+ String c "").
Proof.
  unfold all_word. intros Hrun Hc. rewrite string_exists_append, Hrun.
  cbn [string_exists]. rewrite Hc. reflexivity.
Qed.

Lemma findall_words_from_tokens (s : string) :
  forall run : string,
    all_word run ->
    forall t, In t (findall_words_from run s) -> t <> "" /\ all_word t.
Proof.
  induction s as [|c s IH]; intros run Hrun t Ht; cbn [findall_words_from] in Ht.
  - destruct run as [|x run]; simpl in Ht; [contradiction|].
    destruct Ht as [<-|[]]. split; [discriminate|exact Hrun].
  - destruct (is_word c) eqn:Hc.
    + apply (IH (run +:+ String c "")); [apply all_word_snoc; assumption|exact Ht].
    + destruct run as [|x run]; simpl in Ht.
      * apply (IH ""); [reflexivity|exact Ht].
      * destruct Ht as [<-|Ht]; [split; [discriminate|exact Hrun]|].
        apply (IH ""); [reflexivity|exact Ht].
Qed.

(** X12: every token is a non-empty string of word characters. *)
Theorem findall_words_tokens (s t : string) :
  In t (findall_words s) -> t <> "" /\ all_word t.
Proof. apply (findall_words_from_tokens s ""). reflexivity. Qed.

Lemma findall_words_tokens_witness :
  "fact_1" <> "" /\ all_word "fact_1".
Proof.
  apply (findall_words_tokens "it's a well-known fact_1!" "fact_1").
  vm_compute. tauto.
Defined.

(** X13: the tokens of a table are the tokens of its bodies, row after row:
    the separator put between two bodies keeps a word from running over
    from one review into the next. *)
Theorem tokens_row_by_row (data : DataFrame) :
  tokens data = flat_map (fun r => findall_words (text r)) data.
Proof.
  unfold tokens, str_cat. induction data as [|r data IH]; [reflexivity|].
  cbn [map flat_map]. rewrite <- IH. destruct data as [|r' data].
  - cbn [map String.concat]. rewrite app_nil_r. reflexivity.
  - change (String.concat " " (text r :: map text (r' :: data)))
      with (text r +:+ String " " (String.concat " " (map text (r' :: data)))).
    apply findall_words_from_split. reflexivity.
Qed.

Lemma counter_incr_total (w : string) (d : list (string * nat)) :
  list_sum (map snd (counter_incr w d)) = S (list_sum (map snd d)).
Proof.
  induction d as [|[k v] d IH]; simpl; [reflexivity|].
  destruct (String.eqb k w); simpl; [reflexivity|]. rewrite IH. lia.
Qed.

(** X14: the counter holds one item per distinct word; the count of a word is
    the number of its occurrences, at least one, and the counts add up
    to the number of words. *)
Theorem Counter_totals (words : list string) :
  NoDup (map fst (Counter words))
  /\ (forall w, In w (map fst (Counter words)) <-> In w words)
  /\ (forall w c, In (w, c) (Counter words) ->
        c = occurrences w words /\ (1 <= c)%nat)
  /\ list_sum (map snd (Counter words)) = length words.
Proof.
  destruct (Counter_invariant words) as (Hnd & Hget & Hkeys & _).
  split; [exact Hnd|]. split; [exact Hkeys|]. split.
  - intros w c Hin.
    assert (Hc : c = occurrences w words).
    { rewrite <- Hget. symmetry. apply counter_get_item; assumption. }
    split; [exact Hc|]. subst c. apply occurrences_pos, Hkeys, in_map_iff.
    eexists. split; [|exact Hin]. reflexivity.
  - clear. induction words as [|w words IH] using rev_ind; [reflexivity|].
    rewrite Counter_snoc, counter_incr_total, IH, List.length_app. simpl. lia.
Qed.

(** X15: the summary has as many entries as there are distinct tokens, up to
    20; it is empty exactly when the bodies hold no word character, as
    for the empty table. *)
Theorem word_cloud_length (data : DataFrame) :
  length (generate_word_cloud data)
  = Nat.min 20 (length (remove_dups (tokens data)))
  /\ (generate_word_cloud data = [] <-> tokens data = []).
Proof.
  assert (Hlen : length (generate_word_cloud data)
                 = Nat.min 20 (length (remove_dups (tokens data)))).
  { unfold generate_word_cloud, common_words, most_common.
    fold (tokens data).
    rewrite List.length_map, length_take.
    rewrite (Permutation_length (sorted_by_count_perm _)).
    destruct (Counter_invariant (tokens data)) as (Hnd & _ & Hkeys & _).
    rewrite <- (List.length_map fst (Counter (tokens data))).
    f_equal. apply Permutation_length, NoDup_Permutation.
    - exact Hnd.
    - apply NoDup_remove_dups.
    - intros w. rewrite elem_of_remove_dups, !list_elem_of_In. apply Hkeys. }
  split; [exact Hlen|]. split.
  - intros H. rewrite H in Hlen. simpl in Hlen.
    destruct (tokens data) as [|w l]; [reflexivity|].
    assert (Hw : w ∈ remove_dups (w :: l))
      by (apply elem_of_remove_dups; left).
    destruct (remove_dups (w :: l)); [inversion Hw|simpl in Hlen; lia].
  - intros H. rewrite H in Hlen. simpl in Hlen.
    destruct (generate_word_cloud data); [reflexivity|discriminate].
Qed.

(** *** Loading *)

Lemma read_frames_returned (read_csv : string -> io_result (list Row))
    (file_paths : list string) (frames : list (list Row)) :
  read_frames read_csv file_paths = Returned frames
  <-> Forall2 (fun p d => read_csv p = Returned d) file_paths frames.
Proof.
  revert frames. induction file_paths as [|p ps IH]; intros frames; simpl.
  - split.
    + intros [= <-]. constructor.
    + intros H. inversion H. reflexivity.
  - destruct (read_csv p) as [d|e] eqn:Hp.
    + destruct (read_frames read_csv ps) as [ds|e] eqn:Hps.
      * split.
        -- intros [= <-]. constructor; [exact Hp|]. apply IH. reflexivity.
        -- intros H. inversion H as [|? d' ? ds' Hd Hds]; subst.
           apply IH in Hds. congruence.
      * split; [discriminate|]. intros H.
        inversion H as [|? d' ? ds' Hd Hds]; subst.
        apply IH in Hds. discriminate.
    + split; [discriminate|]. intros H.
      inversion H as [|? d' ? ds' Hd Hds]; subst. congruence.
Qed.

Lemma length_concat_sum {A : Type} (ls : list (list A)) :
  length (concat ls) = list_sum (map (@length A) ls).
Proof.
  induction ls as [|x l IH]; [reflexivity|].
  cbn [concat map list_sum fold_right]. rewrite List.length_app, IH.
  reflexivity.
Qed.

(** X16: loading returns a table exactly when there is at least one path and
    every file reads; the table then holds the rows of the files, in
    the order of the paths and of the rows in each file, so its length
    is the sum of theirs.  With no path at all, [pd.concat] raises. *)
Theorem load_data_concatenates (read_csv : string -> io_result (list Row))
    (file_paths : list string) :
  (forall data, load_data read_csv file_paths = Returned data <->
     file_paths <> []
     /\ exists frames,
          Forall2 (fun p d => read_csv p = Returned d) file_paths frames
          /\ data = concat frames
          /\ length data = list_sum (map (@length Row) frames))
  /\ load_data read_csv [] = Raised (ValueError "No objects to concatenate").
Proof.
  split; [|reflexivity]. intros data. unfold load_data. split.
  - destruct (read_frames read_csv file_paths) as [frames|e] eqn:Hr;
      [|discriminate].
    apply read_frames_returned in Hr. intros H.
    destruct frames as [|d ds]; [discriminate|]. injection H as <-. split.
    + intros ->. inversion Hr.
    + exists (d :: ds). split; [exact Hr|]. split; [reflexivity|].
      apply (length_concat_sum (d :: ds)).
  - intros (Hne & frames & Hall & -> & _).
    apply read_frames_returned in Hall as Hr. rewrite Hr.
    destruct frames as [|d ds]; [|reflexivity].
    inversion Hall. subst. contradiction.
Qed.

(** X17: loading fails with the error of the first file that cannot be read;
    the files after it do not matter. *)
Theorem load_data_first_error (read_csv : string -> io_result (list Row))
    (before after : list string) (file_path : string) (e : io_exn) :
  Forall (fun p => exists d, read_csv p = Returned d) before ->
  read_csv file_path = Raised e ->
  load_data read_csv (before ++ file_path :: after) = Raised e.
Proof.
  intros Hb He. unfold load_data.
  assert (Hr : read_frames read_csv (before ++ file_path :: after) = Raised e).
  { induction Hb as [|p ps [d Hd] _ IH]; simpl.
    - rewrite He. reflexivity.
    - rewrite Hd, IH. reflexivity. }
  rewrite Hr. reflexivity.
Qed.

Lemma load_data_first_error_witness :
  load_data read_csv_sample (["train.csv"] ++ "missing.csv" :: ["test.csv"])
  = Raised (FileNotFoundError "missing.csv").
Proof.
  apply (load_data_first_error read_csv_sample ["train.csv"] ["test.csv"]
           "missing.csv").
  - repeat constructor. exists reviews_3. reflexivity.
  - reflexivity.
Defined.

(** X4: filtering rows read from several files is filtering each file: the
    filter of a concatenation is the concatenation of the filters. *)
Theorem filter_distributes_over_concatenation (d1 d2 : DataFrame) (s : string) :
  filter_data_by_sentiment (d1 ++ d2) s
  = bind (filter_data_by_sentiment d1 s) (fun t1 =>
    bind (filter_data_by_sentiment d2 s) (fun t2 => Ok (t1 ++ t2))).
Proof.
  destruct (decide (s = "positive")) as [->|Hp].
  { rewrite !filter_positive. cbn [bind]. rewrite List.filter_app. reflexivity. }
  destruct (decide (s = "negative")) as [->|Hn].
  { rewrite !filter_negative. cbn [bind]. rewrite List.filter_app. reflexivity. }
  rewrite !filter_unrecognized by assumption. reflexivity.
Qed.

(** *** Export: tables of any length *)

Lemma slice_nonneg {A : Type} (l : list A) (a b : Z) :
  0 <= a <= b ->
  slice l a b = take (Z.to_nat (b - a)) (drop (Z.to_nat a) l).
Proof.
  intros [Ha Hb]. unfold slice, clamp_index.
  replace (a <? 0) with false by (symmetry; apply Z.ltb_ge; lia).
  replace (b <? 0) with false by (symmetry; apply Z.ltb_ge; lia).
  destruct (Z.le_gt_cases a (Z.of_nat (length l))) as [Hal|Hal].
  - rewrite (Z.min_l a) by lia.
    destruct (Z.le_gt_cases b (Z.of_nat (length l))) as [Hbl|Hbl].
    + rewrite Z.min_l by lia. reflexivity.
    + rewrite Z.min_r by lia.
      rewrite !take_ge; [reflexivity| |]; rewrite length_drop; lia.
  - rewrite !Z.min_r by lia. rewrite Z.sub_diag.
    rewrite (drop_ge l (Z.to_nat a)) by lia.
    destruct (Z.to_nat (b - a)); reflexivity.
Qed.

Lemma slice_sublist {A : Type} (l : list A) (a b : Z) :
  slice l a b `sublist_of` l.
Proof.
  unfold slice. etransitivity; [apply sublist_take|apply sublist_drop].
Qed.

Lemma length_slice_le {A : Type} (l : list A) (a b : Z) :
  0 <= a <= b -> Z.of_nat (length (slice l a b)) <= b - a.
Proof. intros H. rewrite slice_nonneg, length_take by assumption. lia. Qed.

Lemma concat_takes {A : Type} (l : list A) (c n : nat) :
  concat (map (fun k => take c (drop (k * c) l)) (seq 0 n)) = take (n * c) l.
Proof.
  induction n as [|n IH]; [reflexivity|].
  rewrite seq_S, map_app, concat_app, IH. cbn [map concat Nat.add].
  rewrite app_nil_r, take_take_drop. f_equal. lia.
Qed.

Lemma concat_map_sublist {A B : Type} (f g : A -> list B) (l : list A) :
  (forall x, f x `sublist_of` g x) ->
  concat (map f l) `sublist_of` concat (map g l).
Proof.
  intros H. induction l as [|x l IH]; simpl; [constructor|].
  apply sublist_app; [apply H|apply IH].
Qed.

Lemma append_length (a b : string) :
  String.length (a +:+ b) = (String.length a + String.length b)%nat.
Proof.
  induction a as [|c a IH]; [reflexivity|].
  change (String c a +:+ b) with (String c (a +:+ b)). simpl. rewrite IH.
  reflexivity.
Qed.

Lemma append_inj_r (s a b : string) : a +:+ s = b +:+ s -> a = b.
Proof.
  revert b. induction a as [|c a IH]; intros b H.
  - apply (f_equal String.length) in H. rewrite !append_length in H.
    destruct b; [reflexivity|simpl in H; lia].
  - destruct b as [|c' b].
    + apply (f_equal String.length) in H. rewrite !append_length in H.
      simpl in H. lia.
    + change (String c (a +:+ s) = String c' (b +:+ s)) in H.
      injection H as -> H. rewrite (IH b H). reflexivity.
Qed.

Lemma part_path_inj (n m : Z) : part_path n = part_path m -> n = m.
Proof.
  unfold part_path, path_join. intros H.
  repeat apply (inj (String.append _)) in H.
  apply append_inj_r in H. apply (inj pretty) in H. exact H.
Qed.

Lemma chunk_path_multiple (k : nat) :
  chunk_path (Z.of_nat k * chunk_size) = part_path (Z.of_nat k + 1).
Proof.
  unfold chunk_path, part_path. rewrite Z.div_mul by discriminate. reflexivity.
Qed.

Lemma part_count_bounds (len : Z) :
  0 <= len ->
  0 <= part_count len /\ len <= part_count len * chunk_size
  /\ (0 < len -> part_count len = (len - 1) / chunk_size + 1).
Proof.
  intros Hlen. unfold part_count, chunk_size.
  pose proof (Z.div_mod (len + 750000 - 1) 750000 ltac:(discriminate)) as Hdm.
  pose proof (Z.mod_pos_bound (len + 750000 - 1) 750000 ltac:(reflexivity)) as Hm.
  split; [apply Z.div_pos; lia|]. split; [lia|]. intros _.
  replace (len + 750000 - 1) with (len - 1 + 1 * 750000) by lia.
  apply Z.div_add. discriminate.
Qed.

Lemma range_chunk_starts (len : Z) :
  0 <= len ->
  range 0 len chunk_size
  = map (fun k => Z.of_nat k * chunk_size)
        (seq 0 (Z.to_nat (part_count len))).
Proof.
  intros Hlen. unfold range.
  destruct (Z.ltb_spec 0 len) as [Hpos|Hzero].
  - rewrite Z.sub_0_r.
    rewrite <- (proj2 (proj2 (part_count_bounds len Hlen)) Hpos).
    apply map_ext. intros k. lia.
  - replace len with 0 by lia. reflexivity.
Qed.

Lemma export_chunk_eq (data : DataFrame) (m : Z) (paths : list string)
    (fs : filesystem) (i : Z) :
  export_chunk data m (paths, fs) i
  = (paths ++ [chunk_path i], to_excel (chunk_at data m i) (chunk_path i) fs).
Proof. reflexivity. Qed.

Lemma export_fold (data : DataFrame) (m : Z) (starts : list Z) :
  forall (paths : list string) (fs : filesystem),
    fold_left (export_chunk data m) starts (paths, fs)
    = (paths ++ map chunk_path starts, write_chunks data m starts fs).
Proof.
  induction starts as [|i starts IH]; intros paths fs; cbn [fold_left map].
  - rewrite app_nil_r. reflexivity.
  - rewrite export_chunk_eq, IH, <- app_assoc. reflexivity.
Qed.

Lemma write_chunks_dirs (data : DataFrame) (m : Z) (starts : list Z) :
  forall fs, dirs (write_chunks data m starts fs) = dirs fs.
Proof.
  induction starts as [|i starts IH]; intros fs; [reflexivity|].
  unfold write_chunks in *. cbn [fold_left]. rewrite IH. reflexivity.
Qed.

Lemma write_chunks_files_other (data : DataFrame) (m : Z) (starts : list Z) :
  forall fs p,
    ~ In p (map chunk_path starts) ->
    files (write_chunks data m starts fs) !! p = files fs !! p.
Proof.
  induction starts as [|i starts IH]; intros fs p Hp; [reflexivity|].
  unfold write_chunks in *. cbn [fold_left]. rewrite IH.
  - unfold to_excel. cbn [files]. apply lookup_insert_ne.
    intros <-. apply Hp. left. reflexivity.
  - intros H. apply Hp. right. exact H.
Qed.

Lemma write_chunks_files_written (data : DataFrame) (m : Z) (starts : list Z) :
  NoDup (map chunk_path starts) ->
  forall fs i, In i starts ->
    files (write_chunks data m starts fs) !! chunk_path i
    = Some (chunk_at data m i).
Proof.
  induction starts as [|j starts IH]; intros Hnd fs i Hi; [contradiction|].
  cbn [map] in Hnd. apply NoDup_cons in Hnd as [Hj Hnd].
  change (write_chunks data m (j :: starts) fs)
    with (write_chunks data m starts
            (to_excel (chunk_at data m j) (chunk_path j) fs)).
  destruct (decide (i = j)) as [->|Hij].
  - rewrite write_chunks_files_other.
    + unfold to_excel. cbn [files]. apply lookup_insert_eq.
    + intros H. apply Hj, list_elem_of_In, H.
  - destruct Hi as [->|Hi]; [contradiction|]. apply IH; assumption.
Qed.

Lemma omap_map_Some {A B C : Type} (f : B -> option C) (g : A -> B)
    (h : A -> C) (l : list A) :
  (forall x, In x l -> f (g x) = Some (h x)) -> omap f (map g l) = map h l.
Proof.
  induction l as [|x l IH]; intros H; [reflexivity|].
  cbn [map omap list_omap]. rewrite H by (left; reflexivity).
  rewrite IH; [reflexivity|]. intros y Hy. apply H. right. exact Hy.
Qed.

Lemma NoDup_map_inj {A B : Type} (f : A -> B) (l : list A) :
  (forall a b, f a = f b -> a = b) -> List.NoDup l -> NoDup (map f l).
Proof.
  intros Hf. induction 1 as [|x l Hx _ IH]; cbn [map]; [constructor|].
  apply NoDup_cons. split; [|exact IH].
  intros H. apply list_elem_of_In, in_map_iff in H as (y & Hy & Hin).
  apply Hf in Hy. subst y. contradiction.
Qed.

Lemma NoDup_part_paths (n : nat) :
  NoDup (map (fun k => part_path (Z.of_nat k + 1)) (seq 0 n)).
Proof.
  apply NoDup_map_inj.
  - intros a b H. apply part_path_inj in H. lia.
  - apply seq_NoDup.
Qed.

(** The closed form of an export: the files are the parts 1, 2, ... in
    order, and each holds the cut slice the loop wrote to it. *)
Lemma create_single_excel_closed_form (data : DataFrame) (max_rows : option Z)
    (fs : filesystem) :
  let m := default max_rows_default max_rows in
  let ks := seq 0 (Z.to_nat (part_count (Z.of_nat (length data)))) in
  let out := create_single_excel data max_rows fs in
  fst out = map (fun k => part_path (Z.of_nat k + 1)) ks
  /\ snd out
     = write_chunks data m (map (fun k => Z.of_nat k * chunk_size) ks)
         (makedirs_exist_ok temp_dir fs)
  /\ chunks out = map (fun k => chunk_at data m (Z.of_nat k * chunk_size)) ks.
Proof.
  intros m ks out.
  assert (Hout : out = (map chunk_path (map (fun k => Z.of_nat k * chunk_size) ks),
                        write_chunks data m
                          (map (fun k => Z.of_nat k * chunk_size) ks)
                          (makedirs_exist_ok temp_dir fs))).
  { subst out. unfold create_single_excel.
    rewrite range_chunk_starts by lia. apply export_fold. }
  assert (Hpaths : map chunk_path (map (fun k => Z.of_nat k * chunk_size) ks)
                   = map (fun k => part_path (Z.of_nat k + 1)) ks).
  { rewrite map_map. apply map_ext. intros k. apply chunk_path_multiple. }
  rewrite Hout. cbn [fst snd]. split; [exact Hpaths|]. split; [reflexivity|].
  unfold chunks. cbn [fst snd]. rewrite map_map.
  apply omap_map_Some. intros k Hk.
  apply write_chunks_files_written.
  - rewrite Hpaths. apply NoDup_part_paths.
  - apply in_map_iff. exists k. split; [reflexivity|exact Hk].
Qed.

Lemma slices_concat (data : DataFrame) (n : nat) :
  concat (map (fun k => slice data (Z.of_nat k * chunk_size)
                          (Z.of_nat k * chunk_size + chunk_size))
            (seq 0 n))
  = take (n * Z.to_nat chunk_size) data.
Proof.
  rewrite <- concat_takes. f_equal. apply map_ext. intros k.
  rewrite slice_nonneg by (unfold chunk_size; lia).
  f_equal; [f_equal; lia|]. f_equal.
  rewrite Z2Nat.inj_mul, Nat2Z.id by (unfold chunk_size; lia). reflexivity.
Qed.

Lemma chunk_at_sublist (data : DataFrame) (m i : Z) :
  chunk_at data m i `sublist_of` slice data i (i + chunk_size).
Proof.
  unfold chunk_at. destruct (_ >? _); [apply slice_sublist|reflexivity].
Qed.

Lemma length_chunk_at (data : DataFrame) (m i : Z) :
  0 <= i -> 0 <= m ->
  Z.of_nat (length (chunk_at data m i)) <= Z.min m chunk_size.
Proof.
  intros Hi Hm. unfold chunk_at.
  pose proof (length_slice_le data i (i + chunk_size)
                ltac:(unfold chunk_size; lia)) as Hc.
  destruct (Z.gtb_spec (Z.of_nat (length (slice data i (i + chunk_size)))) m)
    as [Hgt|Hle].
  - rewrite slice_from_0, length_take by assumption. lia.
  - lia.
Qed.

Lemma to_excel_calls_closed_form (data : DataFrame) (max_rows : option Z) :
  to_excel_calls data max_rows
  = map (fun k => (part_path (Z.of_nat k + 1),
                   chunk_at data (default max_rows_default max_rows)
                     (Z.of_nat k * chunk_size)))
      (seq 0 (Z.to_nat (part_count (Z.of_nat (length data))))).
Proof.
  unfold to_excel_calls. rewrite range_chunk_starts by lia.
  rewrite map_map. apply map_ext. intros k.
  rewrite chunk_path_multiple. reflexivity.
Qed.

(** The returned paths and the state of the files are those of the
    writer calls, made in order after the directory. *)
Lemma create_single_excel_calls (data : DataFrame) (max_rows : option Z)
    (fs : filesystem) :
  create_single_excel data max_rows fs
  = (map fst (to_excel_calls data max_rows),
     fold_left (fun fs call => to_excel (snd call) (fst call) fs)
       (to_excel_calls data max_rows) (makedirs_exist_ok temp_dir fs)).
Proof.
  unfold create_single_excel, to_excel_calls. rewrite export_fold.
  cbn [app]. rewrite map_map. cbn [fst]. f_equal.
  unfold write_chunks.
  generalize (makedirs_exist_ok temp_dir fs).
  induction (range 0 (Z.of_nat (length data)) chunk_size) as [|i l IH];
    intros fs0; [reflexivity|].
  cbn [map fold_left fst snd]. apply IH.
Qed.

(** X18: when the directory can be made, the paths an export returns
    are the paths of its writer calls, in order: the parts 1, 2, ...,
    one per started block of 750000 rows, pairwise distinct, each a file
    afterwards; the directory [temp_excel] exists afterwards, and every
    other file is left as it was, also a part of higher number written
    by an earlier export. *)
Theorem export_files_numbered (data : DataFrame) (max_rows : option Z)
    (fs : filesystem) :
  export_ready fs ->
  let out := create_single_excel data max_rows fs in
  fst out = map fst (to_excel_calls data max_rows)
  /\ fst out
     = map (fun k => part_path (Z.of_nat k + 1))
         (seq 0 (Z.to_nat (part_count (Z.of_nat (length data)))))
  /\ NoDup (fst out)
  /\ (forall p, In p (fst out) -> is_Some (files (snd out) !! p))
  /\ dirs (snd out) = {[temp_dir]} ∪ dirs fs
  /\ forall p, ~ In p (fst out) -> files (snd out) !! p = files fs !! p.
Proof.
  intros _.
  destruct (create_single_excel_closed_form data max_rows fs)
    as (Hpaths & Hfs & Hchunks).
  cbv zeta in *. split.
  { rewrite Hpaths, to_excel_calls_closed_form, map_map. reflexivity. }
  split; [exact Hpaths|]. split.
  { rewrite Hpaths. apply NoDup_part_paths. }
  split.
  { intros p Hp. rewrite Hpaths in Hp.
    apply in_map_iff in Hp as (k & <- & Hk).
    rewrite Hfs, <- chunk_path_multiple. eexists.
    apply write_chunks_files_written.
    - rewrite map_map.
      rewrite (map_ext _ (fun k => part_path (Z.of_nat k + 1)))
        by (intros j; apply chunk_path_multiple).
      apply NoDup_part_paths.
    - apply in_map_iff. exists k. split; [reflexivity|exact Hk]. }
  rewrite Hfs. split.
  - rewrite write_chunks_dirs. reflexivity.
  - intros p Hp. rewrite write_chunks_files_other; [reflexivity|].
    rewrite Hpaths in Hp. intros H. apply Hp.
    rewrite map_map in H.
    rewrite (map_ext _ (fun k => part_path (Z.of_nat k + 1))) in H;
      [exact H|]. intros k. apply chunk_path_multiple.
Qed.

Lemma export_files_numbered_witness :
  let out := create_single_excel table_300 (Some 100) empty_fs in
  fst out = map fst (to_excel_calls table_300 (Some 100))
  /\ fst out
     = map (fun k => part_path (Z.of_nat k + 1))
         (seq 0 (Z.to_nat (part_count (Z.of_nat (length table_300)))))
  /\ NoDup (fst out)
  /\ (forall p, In p (fst out) -> is_Some (files (snd out) !! p))
  /\ dirs (snd out) = {[temp_dir]} ∪ dirs empty_fs
  /\ forall p, ~ In p (fst out) -> files (snd out) !! p = files empty_fs !! p.
Proof.
  apply (export_files_numbered table_300 (Some 100) empty_fs
           export_ready_empty_fs).
Defined.

(** X19: no chunk holds more than [max_rows] rows, nor more than 750000. *)
Theorem export_chunk_bounds (data : DataFrame) (max_rows : option Z)
    (fs : filesystem) :
  0 <= default max_rows_default max_rows ->
  forall chunk,
    In chunk (chunks (create_single_excel data max_rows fs)) ->
    Z.of_nat (length chunk)
    <= Z.min (default max_rows_default max_rows) chunk_size.
Proof.
  intros Hm chunk Hin.
  destruct (create_single_excel_closed_form data max_rows fs)
    as (_ & _ & Hchunks).
  cbv zeta in Hchunks. rewrite Hchunks in Hin.
  apply in_map_iff in Hin as (k & <- & _).
  apply length_chunk_at; [unfold chunk_size; lia|exact Hm].
Qed.

Lemma export_chunk_bounds_witness :
  List.Forall (fun chunk => Z.of_nat (length chunk) <= Z.min 100 chunk_size)
    (chunks (create_single_excel table_300 (Some 100) empty_fs)).
Proof.
  apply List.Forall_forall.
  apply (export_chunk_bounds table_300 (Some 100) empty_fs). simpl. lia.
Defined.



(** X21: whatever [max_rows] is, an export only leaves rows out: the
    rows handed to the writer, call after call, are rows of the table in
    their order, none repeated or moved. *)
Theorem export_only_drops_rows (data : DataFrame) (max_rows : option Z) :
  concat (map snd (to_excel_calls data max_rows)) `sublist_of` data.
Proof.
  rewrite to_excel_calls_closed_form, map_map. cbn [snd].
  etransitivity.
  - apply (concat_map_sublist _
             (fun k => slice data (Z.of_nat k * chunk_size)
                         (Z.of_nat k * chunk_size + chunk_size))).
    intros k. apply chunk_at_sublist.
  - rewrite slices_concat. apply sublist_take.
Qed.



(** *** Cleaning up after an export *)

Lemma starts_with_append (a b : string) : starts_with a (a +:+ b) = true.
Proof.
  induction a as [|c a IH]; [reflexivity|].
  change (String c a +:+ b) with (String c (a +:+ b)). cbn [starts_with].
  rewrite Ascii.eqb_refl, IH. reflexivity.
Qed.

Lemma starts_with_length (p s : string) :
  starts_with p s = true -> (String.length p <= String.length s)%nat.
Proof.
  revert s. induction p as [|a p IH]; intros s H; [simpl; lia|].
  destruct s as [|b s]; [discriminate|]. cbn [starts_with] in H.
  apply andb_prop in H as [_ H]. apply IH in H. simpl. lia.
Qed.

Lemma under_self (d : string) : under d d = false.
Proof.
  unfold under. destruct (starts_with (d +:+ "/") d) eqn:H; [|reflexivity].
  apply starts_with_length in H. rewrite append_length in H. simpl in H. lia.
Qed.

Lemma under_part_path (n : Z) : under temp_dir (part_path n) = true.
Proof.
  unfold under, part_path, path_join.
  change (temp_dir +:+ "/" +:+ ("data_part_" +:+ pretty n +:+ ".xlsx"))
    with (String.append (temp_dir +:+ "/")
            ("data_part_" +:+ pretty n +:+ ".xlsx")).
  apply starts_with_append.
Qed.

(** X23: after an export whose directory could be made, the cleanup
    returns and leaves none of the exported files and no [temp_excel]
    directory; the files that are not below [temp_excel] are as they
    were before the export. *)
Theorem clean_after_export (data : DataFrame) (max_rows : option Z)
    (fs : filesystem) :
  export_ready fs ->
  let out := create_single_excel data max_rows fs in
  exists fs',
    clean_temp_files None (snd out) = Returned fs'
    /\ (forall p, In p (fst out) -> files fs' !! p = None)
    /\ (temp_dir ∉ dirs fs')
    /\ forall p, under temp_dir p = false -> files fs' !! p = files fs !! p.
Proof.
  intros _.
  destruct (create_single_excel_closed_form data max_rows fs)
    as (Hpaths & Hfs & _).
  cbv zeta in *. set (out := create_single_excel data max_rows fs) in *.
  assert (Hdir : temp_dir ∈ dirs (snd out)).
  { rewrite Hfs, write_chunks_dirs. unfold makedirs_exist_ok. cbn [dirs].
    set_solver. }
  unfold clean_temp_files, path_exists, rmtree. cbn [default].
  change "temp_excel" with temp_dir.
  rewrite (bool_decide_eq_true_2 _ Hdir). cbn [orb].
  eexists. split; [reflexivity|]. cbn [files dirs]. split; [|split].
  - intros p Hp. rewrite Hpaths in Hp.
    apply in_map_iff in Hp as (k & <- & _).
    apply map_lookup_filter_None. right. intros x _. cbn [fst].
    rewrite under_part_path. discriminate.
  - intros H. apply elem_of_filter in H as [[H _] _]. contradiction.
  - intros p Hp.
    assert (Hother : files (snd out) !! p = files fs !! p).
    { rewrite Hfs. rewrite write_chunks_files_other; [reflexivity|].
      intros H. apply in_map_iff in H as (i & <- & Hi).
      apply in_map_iff in Hi as (k & <- & _).
      rewrite chunk_path_multiple, under_part_path in Hp. discriminate. }
    rewrite <- Hother.
    destruct (files (snd out) !! p) as [x|] eqn:Hx.
    + apply map_lookup_filter_Some. split; [exact Hx|exact Hp].
    + apply map_lookup_filter_None. left. exact Hx.
Qed.

Lemma clean_after_export_witness :
  let out := create_single_excel reviews_3 None empty_fs in
  exists fs',
    clean_temp_files None (snd out) = Returned fs'
    /\ (forall p, In p (fst out) -> files fs' !! p = None)
    /\ (temp_dir ∉ dirs fs')
    /\ forall p, under temp_dir p = false ->
         files fs' !! p = files empty_fs !! p.
Proof.
  apply (clean_after_export reviews_3 None empty_fs export_ready_empty_fs).
Defined.




(** *** The page of rows displayed by [main] *)

Lemma displayed_rows_take (data : DataFrame) (pn ps : Z) :
  1 <= ps -> 1 <= pn ->
  test.displayed_rows data pn ps
  = take (Z.to_nat ps) (drop (Z.to_nat ((pn - 1) * ps)) data).
Proof.
  intros Hps Hpn. unfold test.displayed_rows, test.end_idx, test.start_idx.
  assert (0 <= (pn - 1) * ps) by nia.
  rewrite slice_nonneg by lia. f_equal. f_equal. lia.
Qed.

Lemma length_displayed_rows (data : DataFrame) (pn ps : Z) :
  1 <= ps -> 1 <= pn ->
  Z.of_nat (length (test.displayed_rows data pn ps))
  = Z.max 0 (Z.min ps (Z.of_nat (length data) - (pn - 1) * ps)).
Proof.
  intros Hps Hpn. rewrite displayed_rows_take by assumption.
  rewrite length_take, length_drop.
  assert (0 <= (pn - 1) * ps) by nia. lia.
Qed.

(** X25: the message "Displaying rows a to b" fits the rows shown: a page
    shows b - a + 1 rows when a <= b and none otherwise, never more than
    the page size, and every page up to [len // page_size] is full. *)
Theorem page_message_matches_rows (data : DataFrame) (pn ps : Z) :
  1 <= ps -> 1 <= pn ->
  let len := Z.of_nat (length data) in
  let shown := Z.of_nat (length (test.displayed_rows data pn ps)) in
  shown = Z.max 0 (test.last_displayed pn ps len - test.first_displayed pn ps + 1)
  /\ shown <= ps
  /\ (pn <= len / ps -> shown = ps).
Proof.
  intros Hps Hpn len shown. subst shown.
  rewrite length_displayed_rows by assumption. fold len.
  unfold test.last_displayed, test.first_displayed.
  split; [lia|]. split; [lia|]. intros Hfull.
  pose proof (Z.mul_div_le len ps ltac:(lia)) as Hq.
  assert (pn * ps <= len) by nia. lia.
Qed.

Lemma page_message_matches_rows_witness :
  let len := Z.of_nat (length table_300) in
  let shown := Z.of_nat (length (test.displayed_rows table_300 3 100)) in
  shown = Z.max 0 (test.last_displayed 3 100 len - test.first_displayed 3 100 + 1)
  /\ shown <= 100
  /\ (3 <= len / 100 -> shown = 100).
Proof. apply (page_message_matches_rows table_300 3 100); lia. Defined.

(** X26: the pages 1, 2, ..., up to the largest page number the input
    accepts, put end to end, are the table: every row is on exactly one
    page. *)
Theorem pages_cover_table (data : DataFrame) (ps : Z) :
  1 <= ps ->
  concat (map (fun k => test.displayed_rows data (Z.of_nat k + 1) ps)
            (seq 0 (Z.to_nat
                      (test.max_page_number (Z.of_nat (length data)) ps))))
  = data.
Proof.
  intros Hps.
  rewrite (map_ext _ (fun k => take (Z.to_nat ps) (drop (k * Z.to_nat ps) data))).
  - rewrite concat_takes. apply take_ge.
    unfold test.max_page_number.
    pose proof (Z.div_mod (Z.of_nat (length data)) ps ltac:(lia)) as Hdm.
    pose proof (Z.mod_pos_bound (Z.of_nat (length data)) ps ltac:(lia)) as Hm.
    pose proof (Z.div_pos (Z.of_nat (length data)) ps ltac:(lia) ltac:(lia)) as Hq.
    apply Nat2Z.inj_le. rewrite Nat2Z.inj_mul, !Z2Nat.id by lia. nia.
  - intros k. rewrite displayed_rows_take by lia. f_equal. f_equal.
    replace (Z.of_nat k + 1 - 1) with (Z.of_nat k) by lia.
    rewrite Z2Nat.inj_mul, Nat2Z.id by lia. reflexivity.
Qed.

Lemma pages_cover_table_witness :
  concat (map (fun k => test.displayed_rows reviews_3 (Z.of_nat k + 1) 2)
            (seq 0 (Z.to_nat
                      (test.max_page_number (Z.of_nat (length reviews_3)) 2))))
  = reviews_3.
Proof. apply (pages_cover_table reviews_3 2). lia. Defined.

(** X27: the last page the input accepts shows no row exactly when the table
    is shorter than a page or its length is a multiple of the page
    size. *)
Theorem last_page_empty (data : DataFrame) (ps : Z) :
  1 <= ps ->
  let len := Z.of_nat (length data) in
  test.displayed_rows data (test.max_page_number len ps) ps = []
  <-> len < ps \/ len mod ps = 0.
Proof.
  intros Hps len.
  pose proof (Z.div_mod len ps ltac:(lia)) as Hdm.
  pose proof (Z.mod_pos_bound len ps ltac:(lia)) as Hm.
  pose proof (Z.div_pos len ps ltac:(lia) ltac:(lia)) as Hq.
  assert (Hpn : 1 <= test.max_page_number len ps)
    by (unfold test.max_page_number; lia).
  pose proof (length_displayed_rows data _ ps Hps Hpn) as Hlen. fold len in Hlen.
  assert (Hiff : test.displayed_rows data (test.max_page_number len ps) ps = []
                 <-> len <= (test.max_page_number len ps - 1) * ps).
  { split.
    - intros H. rewrite H in Hlen. simpl in Hlen. lia.
    - intros H. destruct (test.displayed_rows data _ ps); [reflexivity|].
      simpl length in Hlen. lia. }
  rewrite Hiff. unfold test.max_page_number.
  destruct (Z.le_gt_cases 1 (len / ps)) as [H1|H0].
  - rewrite Z.max_r by lia.
    replace (len / ps + 1 - 1) with (len / ps) by lia.
    split; [intros H; right; nia|].
    intros [H|H]; nia.
  - rewrite Z.max_l by lia. assert (len / ps = 0) by lia.
    split; [intros _; left; nia|intros _; nia].
Qed.

Lemma last_page_empty_witness :
  let len := Z.of_nat (length table_300) in
  test.displayed_rows table_300 (test.max_page_number len 100) 100 = []
  <-> len < 100 \/ len mod 100 = 0.
Proof. apply (last_page_empty table_300 100). lia. Defined.
